(** * screeps-exporter: the collection cycle and its metric store

    The repository holds two generations of [main.go]:

    - the segment exporter ([Module Segment], main.go lines 1-388): several
      shards, account summary, market orders, one memory-segment fetch per
      shard, direct JSON;
    - the compressed-history exporter ([Module History], main.go lines
      389-647): one shard, the whole memory fetched as a base64+gzip blob
      whose stats history's last entry is the current state.

    Both are embedded here function by function.  The Go standard library
    (net/http, encoding/json, encoding/base64, compress/gzip) and the remote
    API are not code of the repository: they are the fields of the [GoLib]
    records below.  The Prometheus gauge vectors are modelled as finite maps
    from label sets to values. *)

From Stdlib Require Import ZArith NArith List Lia Ascii String Strings.Byte.
From Stdlib Require Import Floats.PrimFloat Floats.SpecFloat Floats.FloatOps.
From stdpp Require Import base gmap strings list fin_maps functions.

Open Scope string_scope.
Open Scope list_scope.

(** ** Go values *)

(** Go's [float64]: IEEE 754 binary64. *)
Definition float64 : Set := float.
Bind Scope float_scope with float64.

(** The conversion [float64(x)] from an integer type: round to nearest,
    ties to even. *)
Definition float64_of_Z (x : Z) : float64 :=
  SF2Prim (binary_normalize prec emax x 0%Z false).

(** A Go result pair [(value, err)]; an [error] is represented by the text
    [fmt.Println] prints for it. *)
Inductive result (A : Type) : Type :=
| Ok (a : A)
| Err (err : string).
Arguments Ok {A} a.
Arguments Err {A} err.

(** How one call of [updateStats] ends.  The Go function returns nothing; the
    model also says through which [return] it left, or that it panicked (a
    panic in the collecting goroutine is not recovered and ends the
    process). *)
Inductive Exit : Type :=
| Completed
| Aborted (err : string)
| Panicked (msg : string).

(** ** The metric store *)

Module Metrics.

(** The package-level gauge vectors of either generation, named as the
    variables of [main.go] are. *)
Inductive Gauge : Type :=
| cpuShard | resources | marketOrders
| tick | ms | resetTick | resetMs
| cpu | gcl | gpl
| rcl | energy | creeps | structures | storage | terminal.

#[global] Instance Gauge_eq_dec : EqDecision Gauge.
Proof. solve_decision. Defined.

(** [prometheus.Labels] is [map[string]string]. *)
Abbreviation Labels := (gmap string string).

(** A [GaugeVec]: one value per label set. *)
Abbreviation GaugeVec := (gmap Labels float64).

(** The two calls the exporters make on a gauge vector. *)
Inductive Op : Type :=
| Reset (g : Gauge)
| WithSet (g : Gauge) (labels : Labels) (value : float64).

Record MetricStore : Type := {
  gauges : Gauge -> GaugeVec;
  processingDuration : list float64   (* the histogram's observations, newest last *)
}.

Definition applyOp (gs : Gauge -> GaugeVec) (op : Op) : Gauge -> GaugeVec :=
  match op with
  | Reset g => <[g := ∅]> gs
  | WithSet g labels value => <[g := <[labels := value]> (gs g)]> gs
  end.

Definition applyOps (gs : Gauge -> GaugeVec) (ops : list Op) : Gauge -> GaugeVec :=
  foldl applyOp gs ops.

(** An outgoing request: the URL and the [X-Token] header. *)
Record Request : Type := {
  req_url : string;
  req_X_Token : string
}.

(** Everything a cycle can touch: the metric store, and three histories kept
    for the statements (the requests made, the lines printed, the calls made
    on the gauge vectors). *)
Record World : Type := {
  store : MetricStore;
  requests : list Request;
  stdout : list string;
  gaugeCalls : list Op
}.

Definition Println (err : string) (w : World) : World :=
  {| store := store w; requests := requests w;
     stdout := stdout w ++ [err]; gaugeCalls := gaugeCalls w |}.

Definition call (op : Op) (w : World) : World :=
  {| store := {| gauges := applyOp (gauges (store w)) op;
                 processingDuration := processingDuration (store w) |};
     requests := requests w; stdout := stdout w;
     gaugeCalls := gaugeCalls w ++ [op] |}.

Definition calls (ops : list Op) (w : World) : World := foldl (fun w op => call op w) w ops.

Definition Observe (seconds : float64) (w : World) : World :=
  {| store := {| gauges := gauges (store w);
                 processingDuration := processingDuration (store w) ++ [seconds] |};
     requests := requests w; stdout := stdout w; gaugeCalls := gaugeCalls w |}.

(** The empty store of a process that has just run [setup]. *)
Definition setup : World :=
  {| store := {| gauges := fun _ => ∅; processingDuration := [] |};
     requests := []; stdout := []; gaugeCalls := [] |}.

(** From [w] to [w'] the requests [sent] were sent and nothing else happened:
    nothing printed, no gauge vector touched, nothing observed. *)
Definition sends (w : World) (sent : list Request) (w' : World) : Prop :=
  store w' = store w /\ stdout w' = stdout w /\ gaugeCalls w' = gaugeCalls w /\
  requests w' = requests w ++ sent.

(** The room-scoped families of the eviction rule. *)
Definition roomFamilies : list Gauge := [rcl; energy; creeps; structures; storage].

(** The calls a cycle from [w] to [w'] made on the gauge vectors. *)
Definition cycleCalls (w w' : World) : list Op :=
  drop (length (gaugeCalls w)) (gaugeCalls w').

(** Gauge [g] is reset before anything is written to it. *)
Definition resetBeforeWrites (g : Gauge) (ops : list Op) : Prop :=
  exists before after,
    ops = before ++ Reset g :: after /\ forall l v, ~ In (WithSet g l v) before.



(** A series of gauge [g] is labelled with room [r]. *)
Definition in_room (r : string) (labels : Labels) : Prop := labels !! "room" = Some r.

End Metrics.

(** ** The segment exporter (main.go, lines 1-388) *)

Module Segment.
Import Metrics.

Record AuthMeResponse : Type := {
  Money : float64;
  CPUShard : gmap string float64;
  Resources : gmap string float64
}.

Record MarketOrder : Type := {
  Active : bool;
  Type_ : string;
  Amount : float64;
  RemainingAmount : float64;
  ResourceType : string;
  Price : float64;
  TotalAmount : float64;
  RoomName : string
}.

Record MarketOrdersResponse : Type := {
  Shards : gmap string (list MarketOrder)
}.

Record MemoryResponse : Type := {
  MemoryResponse_Ok : float64;
  Data : string
}.

Record Cpu : Type := {
  Used : float64;
  Limit : float64;
  Bucket : float64
}.

Record Progress : Type := {
  Level : float64;
  Progress_ : float64;
  ProgressTotal : float64
}.

Record Room : Type := {
  RCL : Progress;
  Structures : gmap string float64;
  Creeps : float64;
  EnergyAvailable : float64;
  EnergyCapacityAvailable : float64;
  Storage : gmap string float64;
  Terminal : gmap string float64
}.

Record Stats : Type := {
  Tick : float64;
  Ms : float64;
  LastGlobalResetTick : float64;
  LastGlobalResetMs : float64;
  CPU : Cpu;
  GCL : Progress;
  GPL : Progress;
  Rooms : gmap string Room
}.

(** The zero value [Stats{}], which indexing a Go map gives for a missing key. *)
Definition Progress_zero : Progress :=
  {| Level := 0%float; Progress_ := 0%float; ProgressTotal := 0%float |}.
Definition Stats_zero : Stats :=
  {| Tick := 0%float; Ms := 0%float; LastGlobalResetTick := 0%float; LastGlobalResetMs := 0%float;
     CPU := {| Used := 0%float; Limit := 0%float; Bucket := 0%float |};
     GCL := Progress_zero; GPL := Progress_zero; Rooms := ∅ |}.

(** The package variables [shards], [segment] and [token], set once by [main]. *)
Record Config : Type := {
  shards : list string;
  segment : string;
  token : string
}.

(** What the exporter calls but does not define.  [client_Do n req] is the
    answer of the remote API to the request [req] when [n] requests have been
    sent before it: the body of the response, or the error of
    [http.NewRequest] or [client.Do].  The four decoders are
    [json.NewDecoder(body).Decode] and [json.Unmarshal] at the four target
    types. *)
Record GoLib : Type := {
  client_Do : nat -> Request -> result string;
  json_AuthMeResponse : string -> result AuthMeResponse;
  json_MarketOrdersResponse : string -> result MarketOrdersResponse;
  json_MemoryResponse : string -> result MemoryResponse;
  json_Stats : string -> result Stats
}.

(** The label sets of [setup] (lines 106-110). *)
Definition baseLabels : list string := ["shard"].
Definition typedLabels : list string := baseLabels ++ ["type"].
Definition roomLabels : list string := baseLabels ++ ["room"].
Definition roomTypedLabels : list string := typedLabels ++ ["room"].
Definition marketOrderLabels : list string := roomTypedLabels ++ ["order_type"; "metric"].

(** The variable labels each gauge vector is created with (lines 112-175). *)
Definition variableLabels (g : Gauge) : list string :=
  match g with
  | cpuShard => baseLabels
  | resources => typedLabels
  | marketOrders => marketOrderLabels
  | tick | ms | resetTick | resetMs => baseLabels
  | cpu | gcl | gpl => typedLabels
  | rcl | energy => roomTypedLabels
  | creeps => roomLabels
  | structures | storage | terminal => roomTypedLabels
  end.

Section Cycle.
Variable lib : GoLib.
Variable cfg : Config.

(** [http.NewRequest], the [X-Token] header and [client.Do]: the three
    fetch functions start with the same lines.  The request is entered in the
    history whether it is answered or not. *)
Definition httpGet (url : string) (w : World) : result string * World :=
  let req := {| req_url := url; req_X_Token := token cfg |} in
  (client_Do lib (length (requests w)) req,
   {| store := store w; requests := requests w ++ [req];
      stdout := stdout w; gaugeCalls := gaugeCalls w |}).

(** Lines 201-218. *)
Definition getStatsFromAuthMe (w : World) : result AuthMeResponse * World :=
  let (resp, w) := httpGet "https://screeps.com/api/auth/me" w in
  match resp with
  | Err err => (Err err, w)
  | Ok body => (json_AuthMeResponse lib body, w)
  end.

(** Lines 220-237. *)
Definition getMarketOrders (w : World) : result MarketOrdersResponse * World :=
  let (resp, w) := httpGet "https://screeps.com/api/game/market/my-orders" w in
  match resp with
  | Err err => (Err err, w)
  | Ok body => (json_MarketOrdersResponse lib body, w)
  end.

(** Lines 239-261. *)
Definition getStatsFromMemorySegment (shard : string) (w : World)
  : result Stats * World :=
  let (resp, w) :=
    httpGet ("https://screeps.com/api/user/memory-segment?segment="
             +:+ segment cfg +:+ "&shard=" +:+ shard) w in
  match resp with
  | Err err => (Err err, w)
  | Ok body =>
      match json_MemoryResponse lib body with
      | Err err => (Err err, w)
      | Ok memoryResponse => (json_Stats lib (Data memoryResponse), w)
      end
  end.

(** The loop of lines 277-284; [Err] is its [return]. *)
Fixpoint fetchShards (l : list string) (statsMap : gmap string Stats) (w : World)
  : result (gmap string Stats) * World :=
  match l with
  | [] => (Ok statsMap, w)
  | shard :: l' =>
      let (r, w) := getStatsFromMemorySegment shard w in
      match r with
      | Err err => (Err err, w)
      | Ok stats => fetchShards l' (<[shard := stats]> statsMap) w
      end
  end.

(** Lines 286-294. *)
Definition resetCalls : list Op :=
  [Reset cpuShard; Reset resources; Reset marketOrders; Reset rcl; Reset energy;
   Reset creeps; Reset structures; Reset storage; Reset terminal].

(** Lines 296-302.  A Go [range] over a map visits the entries in an
    unspecified order; [map_to_list] is one such order. *)
Definition accountCalls (authMe : AuthMeResponse) : list Op :=
  map (fun '(shard, amount) => WithSet cpuShard {[ "shard" := shard ]} amount)
      (map_to_list (CPUShard authMe))
  ++ [WithSet resources {[ "shard" := "intershard"; "type" := "money" ]} (Money authMe)]
  ++ map (fun '(typ, amount) =>
            WithSet resources {[ "shard" := "intershard"; "type" := typ ]} amount)
         (map_to_list (Resources authMe)).

(** Lines 306-309: the body of the inner loop over one shard's orders. *)
Definition orderLabels (shard : string) (order : MarketOrder) (metric : string) : Labels :=
  {[ "shard" := shard; "room" := RoomName order; "type" := ResourceType order;
     "order_type" := Type_ order; "metric" := metric ]}.

Definition orderCalls (shard : string) (order : MarketOrder) : list Op :=
  [WithSet marketOrders (orderLabels shard order "price") (Price order);
   WithSet marketOrders (orderLabels shard order "amount") (Amount order);
   WithSet marketOrders (orderLabels shard order "remainingAmount") (RemainingAmount order);
   WithSet marketOrders (orderLabels shard order "totalAmount") (TotalAmount order)].

(** Lines 304-311. *)
Definition marketCalls (orders : MarketOrdersResponse) : list Op :=
  flat_map (fun '(shard, orders) => flat_map (orderCalls shard) orders)
           (map_to_list (Shards orders)).

(** Lines 333-350: the body of the loop over one shard's rooms. *)
Definition roomCalls (shard name : string) (room : Room) : list Op :=
  [WithSet rcl {[ "shard" := shard; "room" := name; "type" := "level" ]} (Level (RCL room));
   WithSet rcl {[ "shard" := shard; "room" := name; "type" := "progress" ]} (Progress_ (RCL room));
   WithSet rcl {[ "shard" := shard; "room" := name; "type" := "progressTotal" ]}
     (ProgressTotal (RCL room));
   WithSet energy {[ "shard" := shard; "room" := name; "type" := "available" ]}
     (EnergyAvailable room);
   WithSet energy {[ "shard" := shard; "room" := name; "type" := "capacityAvailable" ]}
     (EnergyCapacityAvailable room);
   WithSet creeps {[ "shard" := shard; "room" := name ]} (Creeps room)]
  ++ map (fun '(structureType, count) =>
            WithSet structures {[ "shard" := shard; "room" := name; "type" := structureType ]} count)
         (map_to_list (Structures room))
  ++ map (fun '(resourceType, amount) =>
            WithSet storage {[ "shard" := shard; "room" := name; "type" := resourceType ]} amount)
         (map_to_list (Storage room))
  ++ map (fun '(resourceType, amount) =>
            WithSet terminal {[ "shard" := shard; "room" := name; "type" := resourceType ]} amount)
         (map_to_list (Terminal room)).

(** Lines 314-351: the body of the loop over the configured shards. *)
Definition shardCalls (shard : string) (stats : Stats) : list Op :=
  [WithSet tick {[ "shard" := shard ]} (Tick stats);
   WithSet ms {[ "shard" := shard ]} (Ms stats);
   WithSet resetTick {[ "shard" := shard ]} (LastGlobalResetTick stats);
   WithSet resetMs {[ "shard" := shard ]} (LastGlobalResetMs stats);
   WithSet cpu {[ "shard" := shard; "type" := "used" ]} (Used (CPU stats));
   WithSet cpu {[ "shard" := shard; "type" := "limit" ]} (Limit (CPU stats));
   WithSet cpu {[ "shard" := shard; "type" := "bucket" ]} (Bucket (CPU stats));
   WithSet gcl {[ "shard" := shard; "type" := "level" ]} (Level (GCL stats));
   WithSet gcl {[ "shard" := shard; "type" := "progress" ]} (Progress_ (GCL stats));
   WithSet gcl {[ "shard" := shard; "type" := "progressTotal" ]} (ProgressTotal (GCL stats));
   WithSet gpl {[ "shard" := shard; "type" := "level" ]} (Level (GPL stats));
   WithSet gpl {[ "shard" := shard; "type" := "progress" ]} (Progress_ (GPL stats));
   WithSet gpl {[ "shard" := shard; "type" := "progressTotal" ]} (ProgressTotal (GPL stats))]
  ++ flat_map (fun '(name, room) => roomCalls shard name room)
              (map_to_list (Rooms stats)).

(** [statsMap[shard]]. *)
Definition statsOf (statsMap : gmap string Stats) (shard : string) : Stats :=
  default Stats_zero (statsMap !! shard).

(** Lines 286-352: every call on a gauge vector, in program order. *)
Definition publishCalls (authMe : AuthMeResponse) (orders : MarketOrdersResponse)
    (statsMap : gmap string Stats) : list Op :=
  resetCalls
  ++ accountCalls authMe
  ++ marketCalls orders
  ++ flat_map (fun shard => shardCalls shard (statsOf statsMap shard)) (shards cfg).

(** Lines 263-354.  [elapsed] is [time.Since(start).Seconds()]. *)
Definition updateStats (elapsed : float64) (w : World) : Exit * World :=
  let (r, w) := getStatsFromAuthMe w in
  match r with
  | Err err => (Aborted err, Println err w)
  | Ok authMe =>
      let (r, w) := getMarketOrders w in
      match r with
      | Err err => (Aborted err, Println err w)
      | Ok orders =>
          let (r, w) := fetchShards (shards cfg) ∅ w in
          match r with
          | Err err => (Aborted err, Println err w)
          | Ok statsMap =>
              let w := calls (publishCalls authMe orders statsMap) w in
              (Completed, Observe elapsed w)
          end
      end
  end.

(** The fetch phase alone (lines 266-284): what a cycle has in hand when it
    starts publishing. *)
Definition fetchState (w : World)
  : result (AuthMeResponse * MarketOrdersResponse * gmap string Stats) * World :=
  let (r, w) := getStatsFromAuthMe w in
  match r with
  | Err err => (Err err, w)
  | Ok authMe =>
      let (r, w) := getMarketOrders w in
      match r with
      | Err err => (Err err, w)
      | Ok orders =>
          let (r, w) := fetchShards (shards cfg) ∅ w in
          match r with
          | Err err => (Err err, w)
          | Ok statsMap => (Ok (authMe, orders, statsMap), w)
          end
      end
  end.

(** The goroutine of [main] (lines 379-384), for the first [n] rounds;
    [elapsed i] is the duration measured in round [i] counted from the
    last. *)
Fixpoint loop (n : nat) (elapsed : nat -> float64) (w : World) : World :=
  match n with
  | O => w
  | S n' => loop n' elapsed (snd (updateStats (elapsed n') w))
  end.

End Cycle.

(** The three kinds of request a cycle sends. *)
Definition authMeRequest (cfg : Config) : Request :=
  {| req_url := "https://screeps.com/api/auth/me"; req_X_Token := token cfg |}.

Definition marketOrdersRequest (cfg : Config) : Request :=
  {| req_url := "https://screeps.com/api/game/market/my-orders"; req_X_Token := token cfg |}.

Definition segmentRequest (cfg : Config) (shard : string) : Request :=
  {| req_url := "https://screeps.com/api/user/memory-segment?segment="
                +:+ segment cfg +:+ "&shard=" +:+ shard;
     req_X_Token := token cfg |}.

(** [FetchFails lib cfg w sent err]: in a cycle started in world [w], a fetch
    target's fetch or decode returns the error [err], every target before it
    having succeeded; [sent] lists the requests of the targets up to and
    including the failing one.  The targets are, in program order, the
    account summary, the market orders, and the configured shards. *)
Inductive FetchFails (lib : GoLib) (cfg : Config) (w : World)
  : list Request -> string -> Prop :=
| authMe_fails err :
    fst (getStatsFromAuthMe lib cfg w) = Err err ->
    FetchFails lib cfg w [authMeRequest cfg] err
| marketOrders_fails authMe w1 err :
    getStatsFromAuthMe lib cfg w = (Ok authMe, w1) ->
    fst (getMarketOrders lib cfg w1) = Err err ->
    FetchFails lib cfg w [authMeRequest cfg; marketOrdersRequest cfg] err
| shard_fails authMe w1 orders w2 fetched shard rest statsMap w3 err :
    getStatsFromAuthMe lib cfg w = (Ok authMe, w1) ->
    getMarketOrders lib cfg w1 = (Ok orders, w2) ->
    shards cfg = fetched ++ shard :: rest ->
    fetchShards lib cfg fetched ∅ w2 = (Ok statsMap, w3) ->
    fst (getStatsFromMemorySegment lib cfg shard w3) = Err err ->
    FetchFails lib cfg w
      ([authMeRequest cfg; marketOrdersRequest cfg]
       ++ map (segmentRequest cfg) fetched ++ [segmentRequest cfg shard]) err.

(** The requests of a whole cycle. *)
Definition cycleRequests (cfg : Config) : list Request :=
  [authMeRequest cfg; marketOrdersRequest cfg] ++ map (segmentRequest cfg) (shards cfg).

(** The writes to gauge [g] in a sequence of calls, in order. *)
Definition writesTo (g : Gauge) (ops : list Op) : list (Labels * float64) :=
  flat_map (fun op =>
              match op with
              | WithSet g' labels value => if decide (g' = g) then [(labels, value)] else []
              | Reset _ => []
              end) ops.


(** The gauge families the cycle resets, and those it only writes. *)
Definition resetFamilies : list Gauge :=
  [cpuShard; resources; marketOrders; rcl; energy; creeps; structures; storage; terminal].

Definition upsertFamilies : list Gauge :=
  [tick; ms; resetTick; resetMs; cpu; gcl; gpl].

(** Room [r] is in no shard's rooms map. *)
Definition roomAbsent (r : string) (statsMap : gmap string Stats) : Prop :=
  forall shard stats, statsMap !! shard = Some stats -> Rooms stats !! r = None.

(** The four writes of one market order, in the claim's words: one per metric,
    each with the order's shard, room, resource type and order type. *)
Definition orderWrites (shard : string) (order : MarketOrder) : list (Labels * float64) :=
  map (fun '(metric, value) =>
         (({[ "shard" := shard; "room" := RoomName order; "type" := ResourceType order;
              "order_type" := Type_ order; "metric" := metric ]} : Labels), value))
      [("price", Price order); ("amount", Amount order);
       ("remainingAmount", RemainingAmount order); ("totalAmount", TotalAmount order)].


(** Two orders that differ at most in their [Active] flag. *)
Definition sameButActive (o1 o2 : MarketOrder) : Prop :=
  Type_ o1 = Type_ o2 /\ Amount o1 = Amount o2 /\ RemainingAmount o1 = RemainingAmount o2 /\
  ResourceType o1 = ResourceType o2 /\ Price o1 = Price o2 /\
  TotalAmount o1 = TotalAmount o2 /\ RoomName o1 = RoomName o2.

(** All orders of a response, shard by shard. *)
Definition allOrders (orders : MarketOrdersResponse) : list (string * MarketOrder) :=
  flat_map (fun '(shard, os) => map (fun o => (shard, o)) os) (map_to_list (Shards orders)).

End Segment.

(** ** The compressed-history exporter (main.go, lines 389-647) *)

Module History.
Import Metrics.

Record MemoryResponse : Type := {
  MemoryResponse_Ok : Z;   (* int64 *)
  Data : string
}.

Record Cpu : Type := {
  Used : float64;
  Limit : float64;
  Bucket : float64
}.

Record Progress : Type := {
  Level : Z;               (* int64 *)
  Progress_ : float64;
  ProgressTotal : float64
}.

Record Room : Type := {
  RCL : Progress;
  Structures : gmap string Z;   (* map[string]int64 *)
  Creeps : Z;                   (* int64 *)
  EnergyAvailable : float64;
  EnergyCapacityAvailable : float64;
  Storage : gmap string Z       (* map[string]int64 *)
}.

Record Stats : Type := {
  Tick : Z;                (* uint64 *)
  Ms : Z;                  (* uint64 *)
  CPU : Cpu;
  GCL : Progress;
  GPL : Progress;
  Rooms : gmap string Room
}.

(** [Memory] has one field, [Stats], an anonymous struct with the one field
    [History]. *)
Record Memory_Stats : Type := {
  History : list Stats
}.

Record Memory : Type := {
  Stats_ : Memory_Stats
}.

(** The package variables [shard] and [token]. *)
Record Config : Type := {
  shard : string;
  token : string
}.

(** A [*gzip.Reader] is represented by what reading it delivers: the
    decompressed bytes, and the error the stream ends with if it is corrupt. *)
Record Reader : Type := {
  delivered : list byte;
  corrupt : option string
}.

(** What the exporter calls but does not define: the remote API as in
    [Segment.GoLib], [json.NewDecoder(resp.Body).Decode] at [MemoryResponse],
    [base64.StdEncoding.DecodeString], [gzip.NewReader] (which fails on a bad
    header) and [json.NewDecoder(r).Decode] at [Memory] on a gzip reader. *)
Record GoLib : Type := {
  client_Do : nat -> Request -> result string;
  json_MemoryResponse : string -> result MemoryResponse;
  base64_DecodeString : string -> result (list byte);
  gzip_NewReader : list byte -> result Reader;
  json_Memory : Reader -> result Memory
}.

(** [strings.HasPrefix] and [strings.TrimPrefix]. *)
Fixpoint HasPrefix (s prefix : string) {struct prefix} : bool :=
  match prefix, s with
  | EmptyString, _ => true
  | String _ _, EmptyString => false
  | String p prefix', String c s' => if Ascii.eqb c p then HasPrefix s' prefix' else false
  end.

Fixpoint slice_from (n : nat) (s : string) : string :=
  match n, s with
  | O, _ => s
  | S _, EmptyString => EmptyString
  | S n', String _ s' => slice_from n' s'
  end.

Definition TrimPrefix (s prefix : string) : string :=
  if HasPrefix s prefix then slice_from (String.length prefix) s else s.

(** A Go index expression [l[i]] on a slice: [None] is the run-time panic. *)
Definition index {A : Type} (l : list A) (i : Z) : option A :=
  if (i <? 0)%Z then None else l !! Z.to_nat i.

Definition index_panic (i : Z) : string :=
  match i with
  | (-1)%Z => "runtime error: index out of range [-1]"
  | _ => "runtime error: index out of range"
  end.

(** The label sets of [setup] (lines 472-475). *)
Definition baseLabels : list string := ["shard"].
Definition typedLabels : list string := baseLabels ++ ["type"].
Definition roomLabels : list string := baseLabels ++ ["room"].
Definition roomTypedLabels : list string := typedLabels ++ ["room"].

(** The gauge vectors [setup] creates (lines 477-521), with their variable
    labels; the other vectors do not exist in this generation. *)
Definition variableLabels (g : Gauge) : option (list string) :=
  match g with
  | tick | ms => Some baseLabels
  | cpu | gcl | gpl => Some typedLabels
  | rcl | energy => Some roomTypedLabels
  | creeps => Some roomLabels
  | structures | storage => Some roomTypedLabels
  | _ => None
  end.

Section Cycle.
Variable lib : GoLib.
Variable cfg : Config.

(** [http.NewRequest], the [X-Token] header and [client.Do] (lines 538-548). *)
Definition httpGet (url : string) (w : World) : result string * World :=
  let req := {| req_url := url; req_X_Token := token cfg |} in
  (client_Do lib (length (requests w)) req,
   {| store := store w; requests := requests w ++ [req];
      stdout := stdout w; gaugeCalls := gaugeCalls w |}).

(** Lines 577-590. *)
Definition shardCalls (stats : Stats) : list Op :=
  [WithSet tick {[ "shard" := shard cfg ]} (float64_of_Z (Tick stats));
   WithSet ms {[ "shard" := shard cfg ]} (float64_of_Z (Ms stats));
   WithSet cpu {[ "shard" := shard cfg; "type" := "used" ]} (Used (CPU stats));
   WithSet cpu {[ "shard" := shard cfg; "type" := "limit" ]} (Limit (CPU stats));
   WithSet cpu {[ "shard" := shard cfg; "type" := "bucket" ]} (Bucket (CPU stats));
   WithSet gcl {[ "shard" := shard cfg; "type" := "level" ]} (float64_of_Z (Level (GCL stats)));
   WithSet gcl {[ "shard" := shard cfg; "type" := "progress" ]} (Progress_ (GCL stats));
   WithSet gcl {[ "shard" := shard cfg; "type" := "progressTotal" ]} (ProgressTotal (GCL stats));
   WithSet gpl {[ "shard" := shard cfg; "type" := "level" ]} (float64_of_Z (Level (GPL stats)));
   WithSet gpl {[ "shard" := shard cfg; "type" := "progress" ]} (Progress_ (GPL stats));
   WithSet gpl {[ "shard" := shard cfg; "type" := "progressTotal" ]} (ProgressTotal (GPL stats))].

(** Lines 592-596. *)
Definition resetCalls : list Op :=
  [Reset rcl; Reset energy; Reset creeps; Reset structures; Reset storage].

(** Lines 598-612: the body of the loop over the rooms. *)
Definition roomCalls (name : string) (room : Room) : list Op :=
  [WithSet rcl {[ "shard" := shard cfg; "room" := name; "type" := "level" ]}
     (float64_of_Z (Level (RCL room)));
   WithSet rcl {[ "shard" := shard cfg; "room" := name; "type" := "progress" ]}
     (Progress_ (RCL room));
   WithSet rcl {[ "shard" := shard cfg; "room" := name; "type" := "progressTotal" ]}
     (ProgressTotal (RCL room));
   WithSet energy {[ "shard" := shard cfg; "room" := name; "type" := "available" ]}
     (EnergyAvailable room);
   WithSet energy {[ "shard" := shard cfg; "room" := name; "type" := "capacityAvailable" ]}
     (EnergyCapacityAvailable room);
   WithSet creeps {[ "shard" := shard cfg; "room" := name ]} (float64_of_Z (Creeps room))]
  ++ map (fun '(structureType, count) =>
            WithSet structures {[ "shard" := shard cfg; "room" := name; "type" := structureType ]}
              (float64_of_Z count))
         (map_to_list (Structures room))
  ++ map (fun '(resourceType, amount) =>
            WithSet storage {[ "shard" := shard cfg; "room" := name; "type" := resourceType ]}
              (float64_of_Z amount))
         (map_to_list (Storage room)).

(** Lines 577-613: every call on a gauge vector, in program order. *)
Definition publishCalls (stats : Stats) : list Op :=
  shardCalls stats
  ++ resetCalls
  ++ flat_map (fun '(name, room) => roomCalls name room) (map_to_list (Rooms stats)).

(** Lines 536-615.  [elapsed] is [time.Since(start).Seconds()]. *)
Definition updateStats (elapsed : float64) (w : World) : Exit * World :=
  let (resp, w) := httpGet ("https://screeps.com/api/user/memory?shard=" +:+ shard cfg) w in
  match resp with
  | Err err => (Aborted err, Println err w)
  | Ok body =>
      match json_MemoryResponse lib body with
      | Err err => (Aborted err, Println err w)
      | Ok memoryResponse =>
          let data := TrimPrefix (Data memoryResponse) "gz:" in
          match base64_DecodeString lib data with
          | Err err => (Aborted err, Println err w)
          | Ok z =>
              match gzip_NewReader lib z with
              | Err err => (Aborted err, Println err w)
              | Ok r =>
                  match json_Memory lib r with
                  | Err err => (Aborted err, Println err w)
                  | Ok memory =>
                      let history := History (Stats_ memory) in
                      let i := (Z.of_nat (length history) - 1)%Z in
                      match index history i with
                      | None => (Panicked (index_panic i), w)
                      | Some stats =>
                          let w := calls (publishCalls stats) w in
                          (Completed, Observe elapsed w)
                      end
                  end
              end
          end
      end
  end.

(** Lines 550-573 on a response body: the decode pipeline up to the
    [Memory] value. *)
Definition decodeMemory (body : string) : result Memory :=
  match json_MemoryResponse lib body with
  | Err err => Err err
  | Ok memoryResponse =>
      let data := TrimPrefix (Data memoryResponse) "gz:" in
      match base64_DecodeString lib data with
      | Err err => Err err
      | Ok z =>
          match gzip_NewReader lib z with
          | Err err => Err err
          | Ok r => json_Memory lib r
          end
      end
  end.

(** Line 575 on a [Memory] value. *)
Definition currentStats (memory : Memory) : option Stats :=
  let history := History (Stats_ memory) in
  index history (Z.of_nat (length history) - 1).

End Cycle.

(** The one request of a cycle. *)
Definition memoryRequest (cfg : Config) : Request :=
  {| req_url := "https://screeps.com/api/user/memory?shard=" +:+ shard cfg;
     req_X_Token := token cfg |}.

(** *** The encoding side

    The exporter only decodes.  What writes the blob it reads is the game
    script of the account, which is no code of this repository. *)

(** The alphabet of [base64.StdEncoding] (RFC 4648). *)
Definition encodeStd : string :=
  "ABCDEFGHIJKLMNOPQRSTUVWXYZabcdefghijklmnopqrstuvwxyz0123456789+/".

Definition encodeChar (n : N) : ascii :=
  match String.get (N.to_nat n) encodeStd with
  | Some c => c
  | None => "="%char
  end.

(** Modelled from the spec: the base64 step of the compressed-history
    encoder, which is missing from the sources; standard base64 with
    padding, three bytes to four characters. *)
Fixpoint base64_EncodeToString (src : list byte) : string :=
  match src with
  | [] => ""
  | a :: src1 =>
      match src1 with
      | [] =>
          let val := N.shiftl (Byte.to_N a) 16 in
          String (encodeChar (N.land (N.shiftr val 18) 63))
            (String (encodeChar (N.land (N.shiftr val 12) 63)) "==")
      | b :: src2 =>
          match src2 with
          | [] =>
              let val := N.lor (N.shiftl (Byte.to_N a) 16) (N.shiftl (Byte.to_N b) 8) in
              String (encodeChar (N.land (N.shiftr val 18) 63))
                (String (encodeChar (N.land (N.shiftr val 12) 63))
                   (String (encodeChar (N.land (N.shiftr val 6) 63)) "="))
          | c :: rest =>
              let val := N.lor (N.lor (N.shiftl (Byte.to_N a) 16) (N.shiftl (Byte.to_N b) 8))
                               (Byte.to_N c) in
              String (encodeChar (N.land (N.shiftr val 18) 63))
                (String (encodeChar (N.land (N.shiftr val 12) 63))
                   (String (encodeChar (N.land (N.shiftr val 6) 63))
                      (String (encodeChar (N.land val 63)) (base64_EncodeToString rest))))
          end
      end
  end.

(** Modelled from the spec: the encoder of the compressed-history strategy,
    which is missing from the sources: JSON-encode, gzip, base64, with or
    without the marker.  [json_Marshal] and [gzip] are the encoder's JSON and
    gzip steps. *)
Definition encodeMemory (json_Marshal : Memory -> list byte) (gzip : list byte -> list byte)
    (marker : bool) (memory : Memory) : string :=
  (if marker then "gz:" else "") +:+ base64_EncodeToString (gzip (json_Marshal memory)).

(** A [Memory] whose current state is [stats], after the snapshots [older]. *)
Definition memoryOf (older : list Stats) (stats : Stats) : Memory :=
  {| Stats_ := {| History := older ++ [stats] |} |}.

(** The reader over a sound gzip stream that decompresses to [text]. *)
Definition readerOf (text : list byte) : Reader :=
  {| delivered := text; corrupt := None |}.

End History.

(** ** A scripted run of the segment exporter

    One account, two shards, and a remote API whose answers change with the
    number of requests it has seen.  The decoders are tables on the bodies
    the script uses. *)

Module SegmentRun.
Import Metrics Segment.

Definition account : AuthMeResponse :=
  {| Money := 100; CPUShard := {[ "shard0" := 20%float ]};
     Resources := {[ "energy" := 50%float ]} |}.

Definition sellEnergy : MarketOrder :=
  {| Active := true; Type_ := "sell"; Amount := 10; RemainingAmount := 4;
     ResourceType := "energy"; Price := 0.5; TotalAmount := 10; RoomName := "W1N1" |}.

Definition openOrders : MarketOrdersResponse :=
  {| Shards := {[ "shard0" := [sellEnergy] ]} |}.

Definition W1N1 : Room :=
  {| RCL := {| Level := 3; Progress_ := 1200; ProgressTotal := 135000 |};
     Structures := {[ "spawn" := 1%float ]}; Creeps := 5;
     EnergyAvailable := 200; EnergyCapacityAvailable := 500;
     Storage := {[ "energy" := 1000%float ]}; Terminal := ∅ |}.

Definition oneRoom : Stats :=
  {| Tick := 1000; Ms := 1700000000000; LastGlobalResetTick := 900;
     LastGlobalResetMs := 1699999000000;
     CPU := {| Used := 7.5; Limit := 20; Bucket := 10000 |};
     GCL := {| Level := 2; Progress_ := 10; ProgressTotal := 100 |};
     GPL := {| Level := 0; Progress_ := 0; ProgressTotal := 1000 |};
     Rooms := {[ "W1N1" := W1N1 ]} |}.

Definition noRoom : Stats :=
  {| Tick := 1020; Ms := 1700000060000; LastGlobalResetTick := 900;
     LastGlobalResetMs := 1699999000000;
     CPU := {| Used := 0.5; Limit := 20; Bucket := 10000 |};
     GCL := {| Level := 2; Progress_ := 10; ProgressTotal := 100 |};
     GPL := {| Level := 0; Progress_ := 0; ProgressTotal := 1000 |};
     Rooms := ∅ |}.

Definition syntaxError : string := "invalid character 'g' looking for beginning of value".

Definition decodeAuthMe (body : string) : result AuthMeResponse :=
  if String.eqb body "account" then Ok account else Err syntaxError.

Definition decodeMarketOrders (body : string) : result MarketOrdersResponse :=
  if String.eqb body "orders" then Ok openOrders else Err syntaxError.

Definition decodeMemoryResponse (body : string) : result MemoryResponse :=
  if String.eqb body "segment one room" then
    Ok {| MemoryResponse_Ok := 1; Data := "one room" |}
  else if String.eqb body "segment no room" then
    Ok {| MemoryResponse_Ok := 1; Data := "no room" |}
  else if String.eqb body "segment cut short" then
    Ok {| MemoryResponse_Ok := 1; Data := "cut short" |}
  else Err syntaxError.

Definition decodeStats (data : string) : result Stats :=
  if String.eqb data "one room" then Ok oneRoom
  else if String.eqb data "no room" then Ok noRoom
  else Err "unexpected end of JSON input".

Definition cfg0 : Config := {| shards := ["shard0"]; segment := "0"; token := "secret" |}.
Definition cfg01 : Config := {| shards := ["shard0"; "shard1"]; segment := "0"; token := "secret" |}.

(** The remote API: the account summary turns to garbage from the seventh
    request on, shard0 loses its room after the third, shard1's segment is cut
    short after the fourth. *)
Definition remote (n : nat) (req : Request) : result string :=
  if String.eqb (req_url req) (req_url (authMeRequest cfg0)) then
    if (n <? 6)%nat then Ok "account" else Ok "garbage"
  else if String.eqb (req_url req) (req_url (marketOrdersRequest cfg0)) then Ok "orders"
  else if String.eqb (req_url req) (req_url (segmentRequest cfg0 "shard0")) then
    if (n <? 3)%nat then Ok "segment one room" else Ok "segment no room"
  else if String.eqb (req_url req) (req_url (segmentRequest cfg0 "shard1")) then
    if (n <? 4)%nat then Ok "segment no room" else Ok "segment cut short"
  else Err "Get: no such host".

Definition lib : GoLib :=
  {| client_Do := remote;
     json_AuthMeResponse := decodeAuthMe;
     json_MarketOrdersResponse := decodeMarketOrders;
     json_MemoryResponse := decodeMemoryResponse;
     json_Stats := decodeStats |}.

Definition elapsed : float64 := 0.25%float.

(** The world after the first cycle of a process configured with shard0
    alone, and with both shards. *)
Definition after0 : World := snd (updateStats lib cfg0 elapsed setup).
Definition after01 : World := snd (updateStats lib cfg01 elapsed setup).

(** The world after two cycles with shard0 alone. *)
Definition after0_twice : World := loop lib cfg0 2 (fun _ => elapsed) setup.

End SegmentRun.

(** ** A scripted run of the compressed-history exporter

    One shard whose memory holds two snapshots, then three, then none.  The
    library is a toy one: a gzip stream is a three-byte header before the
    plain text, and the JSON texts are looked up in a table. *)

Module HistoryRun.
Import Metrics History.

Definition W1N1 : Room :=
  {| RCL := {| Level := 3; Progress_ := 1200; ProgressTotal := 135000 |};
     Structures := {[ "spawn" := 1%Z ]}; Creeps := 5;
     EnergyAvailable := 200; EnergyCapacityAvailable := 500;
     Storage := {[ "energy" := 1000%Z ]} |}.

Definition snapshot (t : Z) (rooms : gmap string Room) : Stats :=
  {| Tick := t; Ms := (1700000000000 + 3000 * t)%Z;
     CPU := {| Used := 7.5; Limit := 20; Bucket := 10000 |};
     GCL := {| Level := 2; Progress_ := 10; ProgressTotal := 100 |};
     GPL := {| Level := 0; Progress_ := 0; ProgressTotal := 1000 |};
     Rooms := rooms |}.

Definition withRoom : Memory :=
  memoryOf [snapshot 998 {[ "W1N1" := W1N1 ]}] (snapshot 999 {[ "W1N1" := W1N1 ]}).

Definition withoutRoom : Memory :=
  memoryOf [snapshot 998 {[ "W1N1" := W1N1 ]}; snapshot 999 {[ "W1N1" := W1N1 ]}]
           (snapshot 1000 ∅).

Definition noHistory : Memory := {| Stats_ := {| History := [] |} |}.

Definition bytes_eqb (a b : list byte) : bool :=
  String.eqb (string_of_list_byte a) (string_of_list_byte b).

(** The JSON step of the encoder and of the decoder, as a table. *)
Definition marshal (memory : Memory) : list byte :=
  list_byte_of_string
    match length (History (Stats_ memory)) with
    | 0 => "{}"
    | 2 => "{stats:{history:[998 W1N1, 999 W1N1]}}"
    | _ => "{stats:{history:[998 W1N1, 999 W1N1, 1000]}}"
    end.

Definition unmarshal (r : Reader) : result Memory :=
  match corrupt r with
  | Some err => Err err
  | None =>
      if bytes_eqb (delivered r) (marshal noHistory) then Ok noHistory
      else if bytes_eqb (delivered r) (marshal withRoom) then Ok withRoom
      else if bytes_eqb (delivered r) (marshal withoutRoom) then Ok withoutRoom
      else Err "invalid character 'x' looking for beginning of value"
  end.

(** The gzip step of the encoder and of the decoder. *)
Definition gzip (text : list byte) : list byte := ["031"; "139"; "008"]%byte ++ text.

Definition gunzip (z : list byte) : result Reader :=
  match z with
  | "031"%byte :: "139"%byte :: "008"%byte :: text => Ok (readerOf text)
  | _ => Err "gzip: invalid header"
  end.

(** The base64 step of the decoder, as a table on the three blobs. *)
Definition decodeString (s : string) : result (list byte) :=
  if String.eqb s (base64_EncodeToString (gzip (marshal noHistory)))
  then Ok (gzip (marshal noHistory))
  else if String.eqb s (base64_EncodeToString (gzip (marshal withRoom)))
  then Ok (gzip (marshal withRoom))
  else if String.eqb s (base64_EncodeToString (gzip (marshal withoutRoom)))
  then Ok (gzip (marshal withoutRoom))
  else Err "illegal base64 data at input byte 0".

Definition decodeMemoryResponse (body : string) : result MemoryResponse :=
  if String.eqb body "memory with room" then
    Ok {| MemoryResponse_Ok := 1; Data := encodeMemory marshal gzip true withRoom |}
  else if String.eqb body "memory without room" then
    Ok {| MemoryResponse_Ok := 1; Data := encodeMemory marshal gzip false withoutRoom |}
  else if String.eqb body "memory without history" then
    Ok {| MemoryResponse_Ok := 1; Data := encodeMemory marshal gzip true noHistory |}
  else Err "invalid character 'x' looking for beginning of value".

Definition remote (n : nat) (req : Request) : result string :=
  match n with
  | 0 => Ok "memory with room"
  | 1 => Ok "memory without room"
  | _ => Ok "memory without history"
  end.

Definition lib : GoLib :=
  {| client_Do := remote;
     json_MemoryResponse := decodeMemoryResponse;
     base64_DecodeString := decodeString;
     gzip_NewReader := gunzip;
     json_Memory := unmarshal |}.

Definition cfg : Config := {| shard := "shard3"; token := "secret" |}.

Definition elapsed : float64 := 0.125%float.

(** The world after the first cycle, and after the second. *)
Definition after1 : World := snd (updateStats lib cfg elapsed setup).
Definition after2 : World := snd (updateStats lib cfg elapsed after1).

End HistoryRun.

(** ** Start-up: [main] of both generations

    [main] reads the environment and the arguments into the package
    variables, refuses an unusable configuration, and starts the collecting
    goroutine.  [strings.Split] and [strings.SplitN] are the library's; they
    are given here for the one-byte separators [main] uses. *)

Module Startup.

(** [strings.Split(s, sep)] for a one-byte [sep]: the pieces between the
    separators, one more than there are separators. *)
Fixpoint Split (s : string) (sep : ascii) : list string :=
  match s with
  | "" => [""]
  | String c s' =>
      if Ascii.eqb c sep then "" :: Split s' sep
      else match Split s' sep with
           | piece :: pieces => String c piece :: pieces
           | [] => [String c ""]
           end
  end.

(** The text before and after the first [sep], if there is one. *)
Fixpoint Cut (s : string) (sep : ascii) : option (string * string) :=
  match s with
  | "" => None
  | String c s' =>
      if Ascii.eqb c sep then Some ("", s')
      else match Cut s' sep with
           | Some (before, after) => Some (String c before, after)
           | None => None
           end
  end.

(** [strings.SplitN(s, sep, 2)] for a one-byte [sep]. *)
Definition SplitN2 (s : string) (sep : ascii) : list string :=
  match Cut s sep with
  | Some (before, after) => [before; after]
  | None => [s]
  end.


(** How [main] gets on: the loop is started with the configuration read, or
    [log.Fatal] ends the process, or an index expression panics. *)
Inductive Start (C : Type) : Type :=
| Started (cfg : C)
| Fatal (msg : string)
| Crashed (msg : string).
Arguments Started {C} cfg.
Arguments Fatal {C} msg.
Arguments Crashed {C} msg.

Definition index_panic_1 : string := "runtime error: index out of range [1] with length 1".

End Startup.

(** *** The segment exporter (main.go, lines 356-388) *)

Module SegmentMain.
Import Metrics Segment Startup.

(** The package variables before [main] runs (lines 77-80). *)
Definition initial : Config := {| shards := []; segment := "0"; token := "" |}.

(** Lines 358-366: one round of the loop over [os.Environ()]; [None] is the
    panic of [split[1]] on an entry without a value. *)
Definition readEntry (cfg : Config) (e : string) : option Config :=
  let split := SplitN2 e "=" in
  match History.index split 0 with
  | None => None
  | Some name =>
      if String.eqb name "SCREEPS_SHARDS" then
        match History.index split 1 with
        | None => None
        | Some value =>
            Some {| shards := Split value ","; segment := segment cfg; token := token cfg |}
        end
      else if String.eqb name "SCREEPS_SEGMENT" then
        match History.index split 1 with
        | None => None
        | Some value => Some {| shards := shards cfg; segment := value; token := token cfg |}
        end
      else if String.eqb name "SCREEPS_TOKEN" then
        match History.index split 1 with
        | None => None
        | Some value => Some {| shards := shards cfg; segment := segment cfg; token := value |}
        end
      else Some cfg
  end.

(** Lines 357-367. *)
Fixpoint readEnviron (cfg : Config) (environ : list string) : option Config :=
  match environ with
  | [] => Some cfg
  | e :: environ' =>
      match readEntry cfg e with
      | None => None
      | Some cfg' => readEnviron cfg' environ'
      end
  end.

(** Lines 369-372; [args] is [os.Args], the program's name first. *)
Definition readArgs (cfg : Config) (args : list string) : Config :=
  match args with
  | _ :: arg1 :: arg2 :: _ =>
      {| shards := Split arg1 ","; segment := segment cfg; token := arg2 |}
  | _ => cfg
  end.

(** Lines 357-376. *)
Definition configure (environ args : list string) : Start Config :=
  match readEnviron initial environ with
  | None => Crashed index_panic_1
  | Some cfg =>
      let cfg := readArgs cfg args in
      if (length (shards cfg) <? 1)%nat || String.eqb (token cfg) ""
      then Fatal "invalid config"
      else Started cfg
  end.

(** Lines 356-384: [main] up to the first [n] rounds of the collecting
    goroutine; the metrics server of lines 386-387 is not modelled. *)
Definition main (lib : GoLib) (environ args : list string) (n : nat)
    (elapsed : nat -> float64) : Start World :=
  match configure environ args with
  | Started cfg => Started (loop lib cfg n elapsed setup)
  | Fatal msg => Fatal msg
  | Crashed msg => Crashed msg
  end.

(** The name of an entry of the environment: the text before its first [=]. *)
Definition entryName (e : string) : string :=
  match Cut e "=" with
  | Some (name, _) => name
  | None => e
  end.

End SegmentMain.

(** *** The compressed-history exporter (main.go, lines 617-647) *)

Module HistoryMain.
Import Metrics History Startup.

(** The package variables before [main] runs (lines 451-452). *)
Definition initial : Config := {| shard := ""; token := "" |}.

(** Lines 619-626. *)
Definition readEntry (cfg : Config) (e : string) : option Config :=
  let split := SplitN2 e "=" in
  match index split 0 with
  | None => None
  | Some name =>
      if String.eqb name "SCREEPS_SHARD" then
        match index split 1 with
        | None => None
        | Some value => Some {| shard := value; token := token cfg |}
        end
      else if String.eqb name "SCREEPS_TOKEN" then
        match index split 1 with
        | None => None
        | Some value => Some {| shard := shard cfg; token := value |}
        end
      else Some cfg
  end.

(** Lines 618-627. *)
Fixpoint readEnviron (cfg : Config) (environ : list string) : option Config :=
  match environ with
  | [] => Some cfg
  | e :: environ' =>
      match readEntry cfg e with
      | None => None
      | Some cfg' => readEnviron cfg' environ'
      end
  end.

(** Lines 628-631. *)
Definition readArgs (cfg : Config) (args : list string) : Config :=
  match args with
  | _ :: arg1 :: arg2 :: _ => {| shard := arg1; token := arg2 |}
  | _ => cfg
  end.

(** Lines 618-635. *)
Definition configure (environ args : list string) : Start Config :=
  match readEnviron initial environ with
  | None => Crashed index_panic_1
  | Some cfg =>
      let cfg := readArgs cfg args in
      if String.eqb (shard cfg) "" || String.eqb (token cfg) ""
      then Fatal "invalid config"
      else Started cfg
  end.

(** The collecting goroutine (lines 638-643) for at most [n] rounds: a round
    that panics is the last one.  The result says whether the process is
    still running. *)
Fixpoint loop (lib : GoLib) (cfg : Config) (n : nat) (elapsed : nat -> float64) (w : World)
  : bool * World :=
  match n with
  | O => (true, w)
  | S n' =>
      match updateStats lib cfg (elapsed n') w with
      | (Panicked _, w') => (false, w')
      | (_, w') => loop lib cfg n' elapsed w'
      end
  end.

(** Lines 617-643: [main] up to the first [n] rounds of the collecting
    goroutine; the metrics server of lines 645-646 is not modelled. *)
Definition main (lib : GoLib) (environ args : list string) (n : nat)
    (elapsed : nat -> float64) : Start (bool * World) :=
  match configure environ args with
  | Started cfg => Started (loop lib cfg n elapsed setup)
  | Fatal msg => Fatal msg
  | Crashed msg => Crashed msg
  end.


End HistoryMain.

(** ** The effect of a sequence of calls on one series *)

Module Effect.
Import Metrics.

(** What calls have done to the series [labels] of gauge [g]: nothing yet
    ([None]), or left it absent ([Some None]) or with a value. *)
Definition effectOf (g : Gauge) (labels : Labels) (e : option (option float64)) (op : Op)
  : option (option float64) :=
  match op with
  | Reset g' => if decide (g' = g) then Some None else e
  | WithSet g' labels' value =>
      if decide (g' = g) then if decide (labels' = labels) then Some (Some value) else e else e
  end.

Definition effect (ops : list Op) (g : Gauge) (labels : Labels) : option (option float64) :=
  foldl (effectOf g labels) None ops.

(** The series after the calls, from the series before. *)
Definition settle (before : option float64) (e : option (option float64)) : option float64 :=
  match e with
  | None => before
  | Some after => after
  end.

End Effect.

(** ** What the gauges are to hold

    The series of a room and of a shard, listed one by one as the writes of
    [updateStats] name them; the statements below compare the store with
    these lists. *)

Module SegmentSeries.
Import Metrics Segment.

(** The series of room [name] of [shard] (lines 333-350). *)
Inductive roomSeries (shard name : string) (room : Room) : Gauge -> Labels -> float64 -> Prop :=
| rcl_level :
    roomSeries shard name room rcl
      {[ "shard" := shard; "room" := name; "type" := "level" ]} (Level (RCL room))
| rcl_progress :
    roomSeries shard name room rcl
      {[ "shard" := shard; "room" := name; "type" := "progress" ]} (Progress_ (RCL room))
| rcl_progressTotal :
    roomSeries shard name room rcl
      {[ "shard" := shard; "room" := name; "type" := "progressTotal" ]} (ProgressTotal (RCL room))
| energy_available :
    roomSeries shard name room energy
      {[ "shard" := shard; "room" := name; "type" := "available" ]} (EnergyAvailable room)
| energy_capacityAvailable :
    roomSeries shard name room energy
      {[ "shard" := shard; "room" := name; "type" := "capacityAvailable" ]}
      (EnergyCapacityAvailable room)
| creeps_count :
    roomSeries shard name room creeps {[ "shard" := shard; "room" := name ]} (Creeps room)
| structures_count structureType count :
    Structures room !! structureType = Some count ->
    roomSeries shard name room structures
      {[ "shard" := shard; "room" := name; "type" := structureType ]} count
| storage_amount resourceType amount :
    Storage room !! resourceType = Some amount ->
    roomSeries shard name room storage
      {[ "shard" := shard; "room" := name; "type" := resourceType ]} amount
| terminal_amount resourceType amount :
    Terminal room !! resourceType = Some amount ->
    roomSeries shard name room terminal
      {[ "shard" := shard; "room" := name; "type" := resourceType ]} amount.

(** The series of [shard] itself (lines 315-330). *)
Inductive shardSeries (shard : string) (stats : Stats) : Gauge -> Labels -> float64 -> Prop :=
| tick_now : shardSeries shard stats tick {[ "shard" := shard ]} (Tick stats)
| ms_now : shardSeries shard stats ms {[ "shard" := shard ]} (Ms stats)
| resetTick_last :
    shardSeries shard stats resetTick {[ "shard" := shard ]} (LastGlobalResetTick stats)
| resetMs_last :
    shardSeries shard stats resetMs {[ "shard" := shard ]} (LastGlobalResetMs stats)
| cpu_used : shardSeries shard stats cpu {[ "shard" := shard; "type" := "used" ]} (Used (CPU stats))
| cpu_limit :
    shardSeries shard stats cpu {[ "shard" := shard; "type" := "limit" ]} (Limit (CPU stats))
| cpu_bucket :
    shardSeries shard stats cpu {[ "shard" := shard; "type" := "bucket" ]} (Bucket (CPU stats))
| gcl_level :
    shardSeries shard stats gcl {[ "shard" := shard; "type" := "level" ]} (Level (GCL stats))
| gcl_progress :
    shardSeries shard stats gcl {[ "shard" := shard; "type" := "progress" ]} (Progress_ (GCL stats))
| gcl_progressTotal :
    shardSeries shard stats gcl {[ "shard" := shard; "type" := "progressTotal" ]}
      (ProgressTotal (GCL stats))
| gpl_level :
    shardSeries shard stats gpl {[ "shard" := shard; "type" := "level" ]} (Level (GPL stats))
| gpl_progress :
    shardSeries shard stats gpl {[ "shard" := shard; "type" := "progress" ]} (Progress_ (GPL stats))
| gpl_progressTotal :
    shardSeries shard stats gpl {[ "shard" := shard; "type" := "progressTotal" ]}
      (ProgressTotal (GPL stats)).

(** The room-scoped gauges of the segment exporter. *)
Definition roomGauges : list Gauge := [rcl; energy; creeps; structures; storage; terminal].

(** The orders of [os] that label their series as [order] does. *)
Definition sameSeries (order other : MarketOrder) : Prop :=
  RoomName other = RoomName order /\ ResourceType other = ResourceType order /\
  Type_ other = Type_ order.

End SegmentSeries.

Module HistorySeries.
Import Metrics History.

(** The series of room [name] in the compressed-history exporter (lines
    598-612). *)
Inductive roomSeries (cfg : Config) (name : string) (room : Room)
  : Gauge -> Labels -> float64 -> Prop :=
| rcl_level :
    roomSeries cfg name room rcl
      {[ "shard" := shard cfg; "room" := name; "type" := "level" ]}
      (float64_of_Z (Level (RCL room)))
| rcl_progress :
    roomSeries cfg name room rcl
      {[ "shard" := shard cfg; "room" := name; "type" := "progress" ]} (Progress_ (RCL room))
| rcl_progressTotal :
    roomSeries cfg name room rcl
      {[ "shard" := shard cfg; "room" := name; "type" := "progressTotal" ]}
      (ProgressTotal (RCL room))
| energy_available :
    roomSeries cfg name room energy
      {[ "shard" := shard cfg; "room" := name; "type" := "available" ]} (EnergyAvailable room)
| energy_capacityAvailable :
    roomSeries cfg name room energy
      {[ "shard" := shard cfg; "room" := name; "type" := "capacityAvailable" ]}
      (EnergyCapacityAvailable room)
| creeps_count :
    roomSeries cfg name room creeps {[ "shard" := shard cfg; "room" := name ]}
      (float64_of_Z (Creeps room))
| structures_count structureType count :
    Structures room !! structureType = Some count ->
    roomSeries cfg name room structures
      {[ "shard" := shard cfg; "room" := name; "type" := structureType ]} (float64_of_Z count)
| storage_amount resourceType amount :
    Storage room !! resourceType = Some amount ->
    roomSeries cfg name room storage
      {[ "shard" := shard cfg; "room" := name; "type" := resourceType ]} (float64_of_Z amount).

(** The series of the shard itself (lines 577-590). *)
Inductive shardSeries (cfg : Config) (stats : Stats) : Gauge -> Labels -> float64 -> Prop :=
| tick_now : shardSeries cfg stats tick {[ "shard" := shard cfg ]} (float64_of_Z (Tick stats))
| ms_now : shardSeries cfg stats ms {[ "shard" := shard cfg ]} (float64_of_Z (Ms stats))
| cpu_used :
    shardSeries cfg stats cpu {[ "shard" := shard cfg; "type" := "used" ]} (Used (CPU stats))
| cpu_limit :
    shardSeries cfg stats cpu {[ "shard" := shard cfg; "type" := "limit" ]} (Limit (CPU stats))
| cpu_bucket :
    shardSeries cfg stats cpu {[ "shard" := shard cfg; "type" := "bucket" ]} (Bucket (CPU stats))
| gcl_level :
    shardSeries cfg stats gcl {[ "shard" := shard cfg; "type" := "level" ]}
      (float64_of_Z (Level (GCL stats)))
| gcl_progress :
    shardSeries cfg stats gcl {[ "shard" := shard cfg; "type" := "progress" ]}
      (Progress_ (GCL stats))
| gcl_progressTotal :
    shardSeries cfg stats gcl {[ "shard" := shard cfg; "type" := "progressTotal" ]}
      (ProgressTotal (GCL stats))
| gpl_level :
    shardSeries cfg stats gpl {[ "shard" := shard cfg; "type" := "level" ]}
      (float64_of_Z (Level (GPL stats)))
| gpl_progress :
    shardSeries cfg stats gpl {[ "shard" := shard cfg; "type" := "progress" ]}
      (Progress_ (GPL stats))
| gpl_progressTotal :
    shardSeries cfg stats gpl {[ "shard" := shard cfg; "type" := "progressTotal" ]}
      (ProgressTotal (GPL stats)).

(** The gauges of the shard itself. *)
Definition shardGauges : list Gauge := [tick; ms; cpu; gcl; gpl].

End HistorySeries.

(** ** A steady run of the segment exporter

    The remote answers every cycle alike.  The account has a resource that is
    itself called money, and two of its three orders share their series. *)

Module SteadyRun.
Import Metrics Segment.

Definition wealthy : AuthMeResponse :=
  {| Money := 100; CPUShard := {[ "shard0" := 20%float ]};
     Resources := {[ "money" := 7%float; "energy" := 50%float ]} |}.

Definition buyEarly : MarketOrder :=
  {| Active := true; Type_ := "buy"; Amount := 30; RemainingAmount := 30;
     ResourceType := "power"; Price := 2; TotalAmount := 30; RoomName := "W1N1" |}.

Definition buyLate : MarketOrder :=
  {| Active := false; Type_ := "buy"; Amount := 12; RemainingAmount := 5;
     ResourceType := "power"; Price := 3; TotalAmount := 20; RoomName := "W1N1" |}.

Definition threeOrders : MarketOrdersResponse :=
  {| Shards := {[ "shard0" := [buyEarly; buyLate; SegmentRun.sellEnergy] ]} |}.

Definition decodeAuthMe (body : string) : result AuthMeResponse :=
  if String.eqb body "account" then Ok wealthy else Err SegmentRun.syntaxError.

Definition decodeMarketOrders (body : string) : result MarketOrdersResponse :=
  if String.eqb body "orders" then Ok threeOrders else Err SegmentRun.syntaxError.

Definition cfg : Config := SegmentRun.cfg0.

Definition remote (n : nat) (req : Request) : result string :=
  if String.eqb (req_url req) (req_url (authMeRequest cfg)) then Ok "account"
  else if String.eqb (req_url req) (req_url (marketOrdersRequest cfg)) then Ok "orders"
  else if String.eqb (req_url req) (req_url (segmentRequest cfg "shard0")) then
    Ok "segment one room"
  else Err "Get: no such host".

Definition lib : GoLib :=
  {| client_Do := remote;
     json_AuthMeResponse := decodeAuthMe;
     json_MarketOrdersResponse := decodeMarketOrders;
     json_MemoryResponse := SegmentRun.decodeMemoryResponse;
     json_Stats := SegmentRun.decodeStats |}.

Definition elapsed : float64 := 0.25%float.

(** The world after the first cycle. *)
Definition after1 : World := snd (updateStats lib cfg elapsed setup).

End SteadyRun.

(** ** Environments and argument lists *)

Module StartRun.

(** Two entries name the shard list; one entry has no value and no name the
    exporters know. *)
Definition environ : list string :=
  ["HOME=/root"; "SCREEPS_SHARDS=shard1"; "SCREEPS_TOKEN=secret"; "SCREEPS_SHARDS=shard0"; "PATH"].

Definition environ7 : list string :=
  ["SCREEPS_SEGMENT=7"; "SCREEPS_SHARDS=shard1"; "SCREEPS_TOKEN=secret"].


Definition program : list string := ["screeps-exporter"].

Definition arguments : list string := ["screeps-exporter"; "shard0,shard1"; "other"].

End StartRun.

(** * Properties *)

(** ** The metric store under a sequence of calls *)

Module MetricsFacts.
Import Metrics.

Lemma applyOps_snoc gs ops op :
  applyOps gs (ops ++ [op]) = applyOp (applyOps gs ops) op.
Proof. unfold applyOps. by rewrite foldl_app. Qed.

(** A series found in a gauge after a sequence of calls was either written by
    one of the calls, with the value found, or was there before with that
    value and the calls neither reset the gauge nor wrote the series. *)
Lemma applyOps_lookup gs ops g (l : Labels) v :
  applyOps gs ops g !! l = Some v ->
  In (WithSet g l v) ops \/
  (gs g !! l = Some v /\ ~ In (Reset g) ops /\ forall v', ~ In (WithSet g l v') ops).
Proof.
  revert v. induction ops as [|op ops IH] using rev_ind; intros v H.
  - right. split; [exact H|]. split; [intros []|intros v' []].
  - rewrite applyOps_snoc in H.
    assert (Hkeep : applyOps gs ops g !! l = Some v ->
                    op <> Reset g -> (forall v', op <> WithSet g l v') ->
                    In (WithSet g l v) (ops ++ [op]) \/
                    (gs g !! l = Some v /\ ~ In (Reset g) (ops ++ [op]) /\
                     forall v', ~ In (WithSet g l v') (ops ++ [op]))).
    { intros H0 Hr Hw. destruct (IH _ H0) as [Hin|(Hpre & Hnr & Hnw)].
      - left. apply in_or_app. by left.
      - right. split; [exact Hpre|]. split.
        + intros [Hin|[Heq|[]]]%in_app_or; [by apply Hnr|by apply Hr].
        + intros v' [Hin|[Heq|[]]]%in_app_or; [by apply (Hnw v')|by apply (Hw v')]. }
    destruct op as [g0|g0 l0 v0]; simpl in H.
    + destruct (decide (g0 = g)) as [->|Hg].
      * rewrite fn_lookup_insert in H. by rewrite lookup_empty in H.
      * rewrite fn_lookup_insert_ne in H by done.
        apply Hkeep; [done|congruence|congruence].
    + destruct (decide (g0 = g)) as [->|Hg].
      * rewrite fn_lookup_insert in H.
        destruct (decide (l0 = l)) as [->|Hl].
        -- rewrite lookup_insert_eq in H. injection H as ->.
           left. apply in_or_app. right. by left.
        -- rewrite lookup_insert_ne in H by done.
           apply Hkeep; [done|congruence|congruence].
      * rewrite fn_lookup_insert_ne in H by done.
        apply Hkeep; [done|congruence|congruence].
Qed.

(** After a sequence of calls that resets a gauge, the gauge holds only what
    the sequence wrote. *)
Lemma applyOps_reset gs ops g (l : Labels) v :
  In (Reset g) ops -> applyOps gs ops g !! l = Some v -> In (WithSet g l v) ops.
Proof.
  intros Hr H. destruct (applyOps_lookup _ _ _ _ _ H) as [Hin|(_ & Hnr & _)]; [done|].
  by destruct Hnr.
Qed.

(** A series the calls neither reset nor write keeps its value. *)
Lemma applyOps_retained gs ops g (l : Labels) :
  ~ In (Reset g) ops -> (forall v', ~ In (WithSet g l v') ops) ->
  applyOps gs ops g !! l = gs g !! l.
Proof.
  induction ops as [|op ops IH] using rev_ind; intros Hnr Hnw; [done|].
  rewrite applyOps_snoc.
  assert (IH' : applyOps gs ops g !! l = gs g !! l).
  { apply IH.
    - intros Hin. apply Hnr, in_or_app. by left.
    - intros v' Hin. apply (Hnw v'), in_or_app. by left. }
  destruct op as [g0|g0 l0 v0]; simpl.
  - destruct (decide (g0 = g)) as [->|Hg].
    + destruct Hnr. apply in_or_app. right. by left.
    + by rewrite fn_lookup_insert_ne.
  - destruct (decide (g0 = g)) as [->|Hg].
    + rewrite fn_lookup_insert. destruct (decide (l0 = l)) as [->|Hl].
      * destruct (Hnw v0). apply in_or_app. right. by left.
      * by rewrite lookup_insert_ne.
    + by rewrite fn_lookup_insert_ne.
Qed.

Lemma applyOps_app gs ops1 ops2 :
  applyOps gs (ops1 ++ ops2) = applyOps (applyOps gs ops1) ops2.
Proof. unfold applyOps. apply foldl_app. Qed.

(** A series written by calls that do not reset its gauge is there afterwards. *)
Lemma applyOps_written gs ops g (l : Labels) v :
  In (WithSet g l v) ops -> ~ In (Reset g) ops -> is_Some (applyOps gs ops g !! l).
Proof.
  induction ops as [|op ops IH] using rev_ind; intros Hin Hnr; [destruct Hin|].
  rewrite applyOps_snoc.
  assert (Hnr' : ~ In (Reset g) ops) by (intros ?; apply Hnr, in_or_app; by left).
  destruct op as [g0|g0 l0 v0]; simpl.
  - destruct (decide (g0 = g)) as [->|Hg].
    + destruct Hnr. apply in_or_app. right. by left.
    + rewrite fn_lookup_insert_ne by done. apply IH; [|done].
      apply in_app_or in Hin as [?|[?|[]]]; [done|discriminate].
  - destruct (decide (g0 = g)) as [->|Hg].
    + rewrite fn_lookup_insert. destruct (decide (l0 = l)) as [->|Hl].
      * rewrite lookup_insert_eq. by eexists.
      * rewrite lookup_insert_ne by done. apply IH; [|done].
        apply in_app_or in Hin as [?|[?|[]]]; [done|congruence].
    + rewrite fn_lookup_insert_ne by done. apply IH; [|done].
      apply in_app_or in Hin as [?|[?|[]]]; [done|congruence].
Qed.

Lemma calls_snoc ops op w : calls (ops ++ [op]) w = call op (calls ops w).
Proof. unfold calls. by rewrite foldl_app. Qed.

Lemma calls_gauges ops w :
  gauges (store (calls ops w)) = applyOps (gauges (store w)) ops.
Proof.
  induction ops as [|op ops IH] using rev_ind; [done|].
  by rewrite calls_snoc, applyOps_snoc, <- IH.
Qed.

Lemma calls_processingDuration ops w :
  processingDuration (store (calls ops w)) = processingDuration (store w).
Proof.
  induction ops as [|op ops IH] using rev_ind; [done|]. by rewrite calls_snoc.
Qed.

Lemma calls_requests ops w : requests (calls ops w) = requests w.
Proof.
  induction ops as [|op ops IH] using rev_ind; [done|]. by rewrite calls_snoc.
Qed.


Lemma calls_gaugeCalls ops w : gaugeCalls (calls ops w) = gaugeCalls w ++ ops.
Proof.
  induction ops as [|op ops IH] using rev_ind.
  - by rewrite app_nil_r.
  - rewrite calls_snoc. simpl. by rewrite IH, app_assoc.
Qed.

End MetricsFacts.

(** ** The segment exporter *)

Module SegmentFacts.
Import Metrics MetricsFacts Segment.

Lemma sends_nil w : sends w [] w.
Proof. unfold sends. by rewrite app_nil_r. Qed.

Lemma sends_trans w s1 w1 s2 w2 :
  sends w s1 w1 -> sends w1 s2 w2 -> sends w (s1 ++ s2) w2.
Proof.
  intros (Hs & Ho & Hg & Hr) (Hs' & Ho' & Hg' & Hr'). unfold sends.
  rewrite Hs', Ho', Hg', Hr', Hr, app_assoc. done.
Qed.

Section Facts.
Variable lib : GoLib.
Variable cfg : Config.

Lemma httpGet_sends url w :
  sends w [{| req_url := url; req_X_Token := token cfg |}] (snd (httpGet lib cfg url w)).
Proof. by unfold sends. Qed.

Lemma getStatsFromAuthMe_sends w :
  sends w [authMeRequest cfg] (snd (getStatsFromAuthMe lib cfg w)).
Proof.
  unfold getStatsFromAuthMe, httpGet. simpl.
  destruct (client_Do lib _ _); by unfold sends.
Qed.

Lemma getMarketOrders_sends w :
  sends w [marketOrdersRequest cfg] (snd (getMarketOrders lib cfg w)).
Proof.
  unfold getMarketOrders, httpGet. simpl.
  destruct (client_Do lib _ _); by unfold sends.
Qed.

Lemma getStatsFromMemorySegment_sends shard w :
  sends w [segmentRequest cfg shard] (snd (getStatsFromMemorySegment lib cfg shard w)).
Proof.
  unfold getStatsFromMemorySegment, httpGet. simpl.
  destruct (client_Do lib _ _); [|by unfold sends].
  destruct (json_MemoryResponse lib _); by unfold sends.
Qed.

Lemma fetchShards_app l1 l2 statsMap w :
  fetchShards lib cfg (l1 ++ l2) statsMap w =
  match fetchShards lib cfg l1 statsMap w with
  | (Ok statsMap1, w1) => fetchShards lib cfg l2 statsMap1 w1
  | (Err err, w1) => (Err err, w1)
  end.
Proof.
  revert statsMap w. induction l1 as [|shard l1 IH]; intros statsMap w; [done|].
  simpl. destruct (getStatsFromMemorySegment lib cfg shard w) as [[stats|err] w1]; [|done].
  apply IH.
Qed.

(** A loop that runs to its end has asked for every shard, in order. *)
Lemma fetchShards_Ok l statsMap w statsMap' w' :
  fetchShards lib cfg l statsMap w = (Ok statsMap', w') ->
  sends w (map (segmentRequest cfg) l) w'.
Proof.
  revert statsMap w. induction l as [|shard l IH]; intros statsMap w H; simpl in H.
  - injection H as _ <-. apply sends_nil.
  - pose proof (getStatsFromMemorySegment_sends shard w) as Hs.
    destruct (getStatsFromMemorySegment lib cfg shard w) as [[stats|err] w1]; [|done].
    apply (sends_trans _ [_] _ _ _ Hs). by eapply IH.
Qed.

(** A loop that returns early does so at the first shard whose fetch or
    decode fails. *)
Lemma fetchShards_Err l statsMap w err w' :
  fetchShards lib cfg l statsMap w = (Err err, w') ->
  exists fetched shard rest statsMap1 w1,
    l = fetched ++ shard :: rest /\
    fetchShards lib cfg fetched statsMap w = (Ok statsMap1, w1) /\
    getStatsFromMemorySegment lib cfg shard w1 = (Err err, w').
Proof.
  revert statsMap w. induction l as [|shard l IH]; intros statsMap w H; simpl in H; [done|].
  destruct (getStatsFromMemorySegment lib cfg shard w) as [[stats|err0] w1] eqn:E.
  - destruct (IH _ _ H) as (fetched & shard' & rest & statsMap1 & w2 & -> & Hf & Hs).
    exists (shard :: fetched), shard', rest, statsMap1, w2. simpl. by rewrite E.
  - injection H as -> ->. by exists [], shard, l, statsMap, w.
Qed.

(** [updateStats] is its fetch phase followed by one of its two endings. *)
Lemma updateStats_fetchState elapsed w :
  updateStats lib cfg elapsed w =
  match fetchState lib cfg w with
  | (Err err, w1) => (Aborted err, Println err w1)
  | (Ok (authMe, orders, statsMap), w1) =>
      (Completed, Observe elapsed (calls (publishCalls cfg authMe orders statsMap) w1))
  end.
Proof.
  unfold updateStats, fetchState.
  destruct (getStatsFromAuthMe lib cfg w) as [[authMe|err] w1]; [|done].
  destruct (getMarketOrders lib cfg w1) as [[orders|err] w2]; [|done].
  by destruct (fetchShards lib cfg (shards cfg) ∅ w2) as [[statsMap|err] w3].
Qed.

(** The segment exporter has no index expression and no other partial
    operation: a cycle completes or takes an error return. *)
Lemma updateStats_exit elapsed w :
  fst (updateStats lib cfg elapsed w) = Completed \/
  exists err, fst (updateStats lib cfg elapsed w) = Aborted err.
Proof.
  rewrite updateStats_fetchState.
  destruct (fetchState lib cfg w) as [[[[authMe orders] statsMap]|err] w1];
    [by left|right; by exists err].
Qed.

Lemma fetchState_Ok w authMe orders statsMap w1 :
  fetchState lib cfg w = (Ok (authMe, orders, statsMap), w1) ->
  sends w (cycleRequests cfg) w1.
Proof.
  unfold fetchState. intros H.
  pose proof (getStatsFromAuthMe_sends w) as H1.
  destruct (getStatsFromAuthMe lib cfg w) as [[authMe'|err] w2]; [|done].
  pose proof (getMarketOrders_sends w2) as H2.
  destruct (getMarketOrders lib cfg w2) as [[orders'|err] w3]; [|done].
  destruct (fetchShards lib cfg (shards cfg) ∅ w3) as [[statsMap'|err] w4] eqn:E; [|done].
  injection H as _ _ _ <-.
  apply fetchShards_Ok in E.
  apply (sends_trans _ [_] _ _ _ H1), (sends_trans _ [_] _ _ _ H2 E).
Qed.

(** The failures [FetchFails] lists are the errors of the fetch phase. *)
Lemma FetchFails_fetchState w sent err :
  FetchFails lib cfg w sent err ->
  exists w1, fetchState lib cfg w = (Err err, w1) /\ sends w sent w1.
Proof.
  intros H. unfold fetchState. destruct H as [err H|authMe w1 err H1 H2|
    authMe w1 orders w2 fetched shard rest statsMap w3 err H1 H2 Hl Hf Hs].
  - pose proof (getStatsFromAuthMe_sends w) as Hsend.
    destruct (getStatsFromAuthMe lib cfg w) as [[authMe|err'] w1]; simpl in H; [done|].
    injection H as ->. by exists w1.
  - pose proof (getStatsFromAuthMe_sends w) as Hsend1. rewrite H1 in *.
    pose proof (getMarketOrders_sends w1) as Hsend2.
    destruct (getMarketOrders lib cfg w1) as [[orders|err'] w2]; simpl in H2; [done|].
    injection H2 as ->. exists w2. split; [done|].
    apply (sends_trans _ [_] _ [_] _ Hsend1 Hsend2).
  - pose proof (getStatsFromAuthMe_sends w) as Hsend1. rewrite H1 in *.
    pose proof (getMarketOrders_sends w1) as Hsend2. rewrite H2 in *.
    rewrite Hl, fetchShards_app, Hf. simpl.
    pose proof (getStatsFromMemorySegment_sends shard w3) as Hsend3.
    destruct (getStatsFromMemorySegment lib cfg shard w3) as [[stats|err'] w4];
      simpl in Hs; [done|].
    injection Hs as ->. exists w4. split; [done|].
    apply fetchShards_Ok in Hf.
    apply (sends_trans _ [_] _ _ _ Hsend1), (sends_trans _ [_] _ _ _ Hsend2).
    by apply (sends_trans _ _ _ [_] _ Hf).
Qed.

Lemma fetchState_FetchFails_ex w err w1 :
  fetchState lib cfg w = (Err err, w1) -> exists sent, FetchFails lib cfg w sent err.
Proof.
  unfold fetchState. intros H.
  destruct (getStatsFromAuthMe lib cfg w) as [[authMe|err1] w2] eqn:E1.
  - destruct (getMarketOrders lib cfg w2) as [[orders|err2] w3] eqn:E2.
    + destruct (fetchShards lib cfg (shards cfg) ∅ w3) as [[statsMap|err3] w4] eqn:E3; [done|].
      injection H as -> ->.
      destruct (fetchShards_Err _ _ _ _ _ E3) as (fetched & shard & rest & m1 & w5 & Hl & Hf & Hs).
      eexists. eapply shard_fails; eauto. by rewrite Hs.
    + injection H as -> ->. eexists. eapply marketOrders_fails; eauto. by rewrite E2.
  - injection H as -> ->. eexists. apply authMe_fails. by rewrite E1.
Qed.

(** *** Where the writes of a cycle come from *)

Lemma resetCalls_no_write g (l : Labels) v : ~ In (WithSet g l v) resetCalls.
Proof. unfold resetCalls. simpl. intuition discriminate. Qed.

Lemma accountCalls_origin authMe g (l : Labels) v :
  In (WithSet g l v) (accountCalls authMe) ->
  (g = cpuShard /\ exists shard, CPUShard authMe !! shard = Some v /\ l = {[ "shard" := shard ]}) \/
  (g = resources /\ l !! "shard" = Some "intershard" /\
   ((l !! "type" = Some "money" /\ v = Money authMe) \/
    exists typ, Resources authMe !! typ = Some v /\ l !! "type" = Some typ)).
Proof.
  unfold accountCalls. rewrite !in_app_iff, !in_map_iff. simpl.
  intros [([shard amount] & Heq & Hin)|[[Heq|[]]|([typ amount] & Heq & Hin)]];
    injection Heq as <- <- <-.
  - left. split; [done|]. exists shard. split; [|done].
    by apply elem_of_map_to_list, list_elem_of_In.
  - right. split; [done|]. split; [done|]. by left.
  - right. split; [done|]. split; [done|]. right. exists typ. split; [|done].
    by apply elem_of_map_to_list, list_elem_of_In.
Qed.

Lemma orderCalls_origin shard order g (l : Labels) v :
  In (WithSet g l v) (orderCalls shard order) ->
  g = marketOrders /\ l !! "shard" = Some shard /\ l !! "room" = Some (RoomName order).
Proof.
  unfold orderCalls, orderLabels. simpl.
  intros [H|[H|[H|[H|[]]]]]; injection H as <- <- <-; done.
Qed.

Lemma marketCalls_origin orders g (l : Labels) v :
  In (WithSet g l v) (marketCalls orders) ->
  g = marketOrders /\
  exists shard os order,
    Shards orders !! shard = Some os /\ In order os /\
    In (WithSet g l v) (orderCalls shard order).
Proof.
  unfold marketCalls. rewrite in_flat_map.
  intros ([shard os] & Hin & H). apply in_flat_map in H as (order & Ho & H).
  split; [by apply orderCalls_origin in H as [? _]|].
  exists shard, os, order. split; [|done].
  by apply elem_of_map_to_list, list_elem_of_In.
Qed.

Lemma roomCalls_origin shard name room g (l : Labels) v :
  In (WithSet g l v) (roomCalls shard name room) ->
  In g [rcl; energy; creeps; structures; storage; terminal] /\
  l !! "shard" = Some shard /\ l !! "room" = Some name.
Proof.
  unfold roomCalls. rewrite !in_app_iff, !in_map_iff. simpl.
  intros [H|[H|[H|H]]].
  - repeat (destruct H as [H|H]; [injection H as <- <- <-; split; [tauto|done]|]).
    destruct H.
  - destruct H as ([t c] & H & _). injection H as <- <- <-. split; [tauto|done].
  - destruct H as ([t c] & H & _). injection H as <- <- <-. split; [tauto|done].
  - destruct H as ([t c] & H & _). injection H as <- <- <-. split; [tauto|done].
Qed.

Lemma shardCalls_origin shard stats g (l : Labels) v :
  In (WithSet g l v) (shardCalls shard stats) ->
  (In g upsertFamilies /\ l !! "shard" = Some shard /\ l !! "room" = None) \/
  (exists name room, Rooms stats !! name = Some room /\
                     In (WithSet g l v) (roomCalls shard name room)).
Proof.
  unfold shardCalls. rewrite in_app_iff, in_flat_map.
  intros [H|([name room] & Hin & H)].
  - left. unfold upsertFamilies. simpl in H.
    repeat (destruct H as [H|H]; [injection H as <- <- <-; split; [simpl; tauto|done]|]).
    destruct H.
  - right. exists name, room. split; [|done].
    by apply elem_of_map_to_list, list_elem_of_In.
Qed.

Lemma publishCalls_origin authMe orders statsMap g (l : Labels) v :
  In (WithSet g l v) (publishCalls cfg authMe orders statsMap) ->
  In (WithSet g l v) (accountCalls authMe) \/
  In (WithSet g l v) (marketCalls orders) \/
  exists shard, In shard (shards cfg) /\
                In (WithSet g l v) (shardCalls shard (statsOf statsMap shard)).
Proof.
  unfold publishCalls. rewrite !in_app_iff, in_flat_map.
  intros [H|[H|[H|H]]]; [by apply resetCalls_no_write in H|tauto|tauto|].
  right. right. destruct H as (shard & Hin & H). by exists shard.
Qed.

(** A series written to a room-scoped gauge carries the name of a room of
    the fetched state. *)
Lemma publishCalls_room authMe orders statsMap g (l : Labels) v :
  In g [rcl; energy; creeps; structures; storage; terminal] ->
  In (WithSet g l v) (publishCalls cfg authMe orders statsMap) ->
  exists shard stats name room,
    In shard (shards cfg) /\ statsMap !! shard = Some stats /\
    Rooms stats !! name = Some room /\
    l !! "shard" = Some shard /\ l !! "room" = Some name.
Proof.
  intros Hg H. apply publishCalls_origin in H as [H|[H|(shard & Hin & H)]].
  - apply accountCalls_origin in H as [[-> _]|[-> _]]; simpl in Hg;
      intuition discriminate.
  - apply marketCalls_origin in H as [-> _]. simpl in Hg. intuition discriminate.
  - apply shardCalls_origin in H as [(Hu & _)|(name & room & Hr & H)].
    + unfold upsertFamilies in Hu. simpl in Hg, Hu.
      repeat (destruct Hg as [<-|Hg]; [intuition discriminate|]). destruct Hg.
    + apply roomCalls_origin in H as (_ & Hs & Hn). unfold statsOf in Hr.
      destruct (statsMap !! shard) as [stats|] eqn:E; simpl in Hr.
      * by exists shard, stats, name, room.
      * by rewrite lookup_empty in Hr.
Qed.

Lemma projection_no_reset authMe orders statsMap g :
  ~ In (Reset g) (accountCalls authMe ++ marketCalls orders
                  ++ flat_map (fun shard => shardCalls shard (statsOf statsMap shard))
                              (shards cfg)).
Proof.
  rewrite !in_app_iff. intros [H|[H|H]].
  - unfold accountCalls in H. rewrite !in_app_iff, !in_map_iff in H. simpl in H.
    destruct H as [([? ?] & ? & _)|[[?|[]]|([? ?] & ? & _)]]; discriminate.
  - unfold marketCalls in H. apply in_flat_map in H as ([? ?] & _ & H).
    apply in_flat_map in H as (? & _ & H). unfold orderCalls in H. simpl in H.
    intuition discriminate.
  - apply in_flat_map in H as (shard & _ & H). unfold shardCalls in H.
    rewrite in_app_iff, in_flat_map in H. destruct H as [H|([name room] & _ & H)].
    + simpl in H. intuition discriminate.
    + unfold roomCalls in H. rewrite !in_app_iff, !in_map_iff in H. simpl in H.
      destruct H as [H|[([? ?] & ? & _)|[([? ?] & ? & _)|([? ?] & ? & _)]]];
        try discriminate. intuition discriminate.
Qed.

Lemma publishCalls_resets authMe orders statsMap g :
  In (Reset g) (publishCalls cfg authMe orders statsMap) <-> In g resetFamilies.
Proof.
  unfold publishCalls. rewrite in_app_iff. split.
  - intros [H|H]; [|by apply projection_no_reset in H].
    unfold resetCalls, resetFamilies in *. simpl in *.
    repeat (destruct H as [H|H]; [injection H as <-; tauto|]). destruct H.
  - intros H. left. unfold resetCalls, resetFamilies in *. simpl in *.
    repeat (destruct H as [<-|H]; [tauto|]). destruct H.
Qed.



Lemma publishCalls_resetBeforeWrites authMe orders statsMap g :
  In g resetFamilies ->
  resetBeforeWrites g (publishCalls cfg authMe orders statsMap).
Proof.
  intros Hg. assert (Hin : In (Reset g) resetCalls).
  { unfold resetCalls, resetFamilies in *. simpl in *.
    repeat (destruct Hg as [<-|Hg]; [tauto|]). destruct Hg. }
  apply in_split in Hin as (before & after & Hsplit).
  exists before, (after ++ accountCalls authMe ++ marketCalls orders
                  ++ flat_map (fun shard => shardCalls shard (statsOf statsMap shard))
                              (shards cfg)).
  split.
  - unfold publishCalls. rewrite Hsplit, <- app_assoc. done.
  - intros l v Hin. apply (resetCalls_no_write g l v). rewrite Hsplit.
    apply in_or_app. by left.
Qed.

(** *** What a completed cycle leaves *)

Lemma updateStats_completed elapsed w authMe orders statsMap w1 :
  fetchState lib cfg w = (Ok (authMe, orders, statsMap), w1) ->
  updateStats lib cfg elapsed w =
    (Completed, Observe elapsed (calls (publishCalls cfg authMe orders statsMap) w1)) /\
  sends w (cycleRequests cfg) w1.
Proof.
  intros H. split; [by rewrite updateStats_fetchState, H|by eapply fetchState_Ok].
Qed.

Lemma completed_gauges elapsed w authMe orders statsMap w1 :
  fetchState lib cfg w = (Ok (authMe, orders, statsMap), w1) ->
  gauges (store (snd (updateStats lib cfg elapsed w))) =
  applyOps (gauges (store w)) (publishCalls cfg authMe orders statsMap).
Proof.
  intros H. destruct (updateStats_completed elapsed _ _ _ _ _ H) as [-> (Hs & _)].
  cbn [snd Observe store gauges]. by rewrite calls_gauges, Hs.
Qed.

Lemma completed_cycleCalls elapsed w authMe orders statsMap w1 :
  fetchState lib cfg w = (Ok (authMe, orders, statsMap), w1) ->
  cycleCalls w (snd (updateStats lib cfg elapsed w)) =
  publishCalls cfg authMe orders statsMap.
Proof.
  intros H. destruct (updateStats_completed elapsed _ _ _ _ _ H) as [-> (_ & _ & Hg & _)].
  unfold cycleCalls. cbn [snd Observe gaugeCalls].
  by rewrite calls_gaugeCalls, Hg, drop_app_length.
Qed.

(** A cycle in which a target fails has asked for the targets up to that
    one, printed the error and done nothing else. *)
Lemma updateStats_aborted elapsed w sent err :
  FetchFails lib cfg w sent err ->
  exists w1,
    updateStats lib cfg elapsed w = (Aborted err, Println err w1) /\ sends w sent w1.
Proof.
  intros H. apply FetchFails_fetchState in H as (w1 & H & Hs).
  exists w1. by rewrite updateStats_fetchState, H.
Qed.

Lemma fetchState_FetchFails w err w1 :
  fetchState lib cfg w = (Err err, w1) ->
  FetchFails lib cfg w (drop (length (requests w)) (requests w1)) err.
Proof.
  intros H. destruct (fetchState_FetchFails_ex _ _ _ H) as (sent & Hf).
  destruct (FetchFails_fetchState _ _ _ Hf) as (w2 & H2 & _ & _ & _ & Hr).
  assert (w2 = w1) as -> by congruence.
  by rewrite Hr, drop_app_length.
Qed.

End Facts.

Lemma pair_fst {A B : Type} (p : A * B) (a : A) : fst p = a -> p = (a, snd p).
Proof. destruct p. simpl. by intros ->. Qed.

End SegmentFacts.

(** ** The segment exporter: the cycle *)

Module SegmentCycle.
Import Metrics MetricsFacts Segment SegmentFacts.

Lemma writesTo_app g ops1 ops2 :
  writesTo g (ops1 ++ ops2) = writesTo g ops1 ++ writesTo g ops2.
Proof. unfold writesTo. apply flat_map_app. Qed.

Lemma writesTo_none g ops :
  (forall (l : Labels) v, ~ In (WithSet g l v) ops) -> writesTo g ops = [].
Proof.
  induction ops as [|op ops IH]; intros H; [done|].
  unfold writesTo in *. simpl. rewrite IH.
  - destruct op as [g'|g' l v]; [done|]. destruct (decide (g' = g)) as [->|]; [|done].
    destruct (H l v). by left.
  - intros l v Hin. apply (H l v). by right.
Qed.

Lemma writesTo_orderCalls shard order :
  writesTo marketOrders (orderCalls shard order) = orderWrites shard order.
Proof. reflexivity. Qed.

Lemma writesTo_marketCalls orders :
  writesTo marketOrders (marketCalls orders) =
  flat_map (fun '(shard, order) => orderWrites shard order) (allOrders orders).
Proof.
  unfold marketCalls, allOrders.
  induction (map_to_list (Shards orders)) as [|[shard os] L IH]; [done|].
  cbn [flat_map]. rewrite writesTo_app, flat_map_app, IH. f_equal.
  clear IH. induction os as [|order os IH]; [done|].
  cbn [flat_map map]. rewrite writesTo_app, writesTo_orderCalls, IH. done.
Qed.

Lemma length_orderWrites_all (L : list (string * MarketOrder)) :
  length (flat_map (fun '(shard, order) => orderWrites shard order) L) = 4 * length L.
Proof.
  induction L as [|[shard order] L IH]; [done|].
  cbn [flat_map]. rewrite length_app, IH. simpl. lia.
Qed.


(** Within one process the shard list is fixed, and the families that are
    never reset hold nothing but series of configured shards: every cycle
    writes such series only, and the store starts empty. *)
Lemma updateStats_upsert_invariant lib cfg elapsed w :
  (forall g (l : Labels) v,
     In g upsertFamilies -> gauges (store w) g !! l = Some v ->
     exists shard, In shard (shards cfg) /\ l !! "shard" = Some shard) ->
  forall g (l : Labels) v,
    In g upsertFamilies ->
    gauges (store (snd (updateStats lib cfg elapsed w))) g !! l = Some v ->
    exists shard, In shard (shards cfg) /\ l !! "shard" = Some shard.
Proof.
  intros Inv g l v Hg. rewrite updateStats_fetchState.
  destruct (fetchState lib cfg w) as [[[[authMe orders] statsMap]|err] w1] eqn:E.
  - pose proof (fetchState_Ok _ _ _ _ _ _ _ E) as (Hs & _).
    cbn [snd Observe store gauges]. rewrite calls_gauges, Hs. intros Hl.
    destruct (applyOps_lookup _ _ _ _ _ Hl) as [Hw|(Hpre & _)]; [|by eapply Inv].
    apply publishCalls_origin in Hw as [Hw|[Hw|(shard & Hin & Hw)]].
    + apply accountCalls_origin in Hw as [[-> _]|[-> _]];
        unfold upsertFamilies in Hg; simpl in Hg; intuition discriminate.
    + apply marketCalls_origin in Hw as [-> _].
      unfold upsertFamilies in Hg. simpl in Hg. intuition discriminate.
    + exists shard. split; [done|].
      apply shardCalls_origin in Hw as [(_ & Hsh & _)|(name & room & _ & Hw)]; [done|].
      by apply roomCalls_origin in Hw as (_ & Hsh & _).
  - destruct (fetchState_FetchFails_ex _ _ _ _ _ E) as (sent & Hf).
    apply FetchFails_fetchState in Hf as (w2 & Hf & Hs & _).
    assert (w2 = w1) as -> by congruence.
    cbn [snd Println store]. rewrite Hs. by apply Inv.
Qed.

Lemma loop_upsert_families lib cfg n elapsed g (l : Labels) v :
  In g upsertFamilies ->
  gauges (store (loop lib cfg n elapsed setup)) g !! l = Some v ->
  exists shard, In shard (shards cfg) /\ l !! "shard" = Some shard.
Proof.
  assert (H : forall w,
             (forall g (l : Labels) v,
                In g upsertFamilies -> gauges (store w) g !! l = Some v ->
                exists shard, In shard (shards cfg) /\ l !! "shard" = Some shard) ->
             forall g (l : Labels) v,
               In g upsertFamilies -> gauges (store (loop lib cfg n elapsed w)) g !! l = Some v ->
               exists shard, In shard (shards cfg) /\ l !! "shard" = Some shard).
  { induction n as [|n IH]; intros w Inv; [exact Inv|].
    simpl. apply IH. by apply updateStats_upsert_invariant. }
  apply H. intros g' l' v' _ Hl. simpl in Hl. by rewrite lookup_empty in Hl.
Qed.

(** The eviction rule of the segment exporter: after a completed cycle no
    series of a room-scoped family names a room that no shard of the fetched
    state has, whatever the store held before. *)
Lemma segment_rooms_evicted lib cfg elapsed w authMe orders statsMap w1 :
  fetchState lib cfg w = (Ok (authMe, orders, statsMap), w1) ->
  forall r, roomAbsent r statsMap ->
  forall g, In g roomFamilies ->
  forall (l : Labels) v,
    gauges (store (snd (updateStats lib cfg elapsed w))) g !! l = Some v -> ~ in_room r l.
Proof.
  intros H r Hr g Hg l v Hl Hroom.
  rewrite (completed_gauges lib cfg elapsed _ _ _ _ _ H) in Hl.
  assert (Hg' : In g [rcl; energy; creeps; structures; storage; terminal]).
  { unfold roomFamilies in Hg. simpl in *. tauto. }
  assert (Hreset : In (Reset g) (publishCalls cfg authMe orders statsMap)).
  { apply publishCalls_resets. unfold resetFamilies. simpl in *. tauto. }
  pose proof (applyOps_reset _ _ _ _ _ Hreset Hl) as Hw.
  destruct (publishCalls_room cfg _ _ _ _ _ _ Hg' Hw)
    as (shard & stats & name & room & _ & Hs & Hn & _ & Hname).
  unfold in_room in Hroom. rewrite Hroom in Hname. injection Hname as <-.
  rewrite (Hr _ _ Hs) in Hn. discriminate.
Qed.

(** C3. When a fetch target's fetch or decode returns an error, the cycle
    ends through the error return, makes no call on any gauge vector and
    leaves the metric store as it was. *)
Theorem updateStats_error_leaves_store lib cfg elapsed w sent err :
  FetchFails lib cfg w sent err ->
  fst (updateStats lib cfg elapsed w) = Aborted err /\
  cycleCalls w (snd (updateStats lib cfg elapsed w)) = [] /\
  store (snd (updateStats lib cfg elapsed w)) = store w.
Proof.
  intros H. destruct (updateStats_aborted lib cfg elapsed _ _ _ H) as (w1 & -> & Hs & _ & Hg & _).
  unfold cycleCalls. cbn [fst snd Println store gaugeCalls]. rewrite Hg, drop_all. done.
Qed.

(** C7. The writes a completed cycle makes to the market_orders gauge are, for
    every order of the response, the four writes of that order: its price,
    amount, remainingAmount and totalAmount, each under the order's shard,
    room, resource type and order type and the metric's name. *)
Theorem marketOrders_four_writes_per_order lib cfg elapsed w authMe orders statsMap w1 :
  fetchState lib cfg w = (Ok (authMe, orders, statsMap), w1) ->
  let ws := writesTo marketOrders (cycleCalls w (snd (updateStats lib cfg elapsed w))) in
  ws = flat_map (fun '(shard, order) => orderWrites shard order) (allOrders orders) /\
  length ws = 4 * length (allOrders orders) /\
  forall shard order,
    map (fun lv : Labels * float64 => (fst lv !! "metric", snd lv)) (orderWrites shard order) =
      [(Some "price", Price order); (Some "amount", Amount order);
       (Some "remainingAmount", RemainingAmount order);
       (Some "totalAmount", TotalAmount order)] /\
    Forall (fun lv : Labels * float64 =>
              fst lv !! "shard" = Some shard /\ fst lv !! "room" = Some (RoomName order) /\
              fst lv !! "type" = Some (ResourceType order) /\
              fst lv !! "order_type" = Some (Type_ order))
           (orderWrites shard order).
Proof.
  intros H ws. subst ws.
  rewrite (completed_cycleCalls lib cfg elapsed _ _ _ _ _ H).
  assert (Heq : writesTo marketOrders (publishCalls cfg authMe orders statsMap) =
                flat_map (fun '(shard, order) => orderWrites shard order) (allOrders orders)).
  { unfold publishCalls. rewrite !writesTo_app, writesTo_marketCalls.
    rewrite (writesTo_none _ resetCalls) by apply resetCalls_no_write.
    rewrite (writesTo_none _ (accountCalls authMe)).
    2:{ intros l v Hin. apply accountCalls_origin in Hin as [[? _]|[? _]]; discriminate. }
    rewrite (writesTo_none _ (flat_map _ _)).
    2:{ intros l v Hin. apply in_flat_map in Hin as (shard & _ & Hin).
        apply shardCalls_origin in Hin as [(Hu & _)|(name & room & _ & Hin)].
        - unfold upsertFamilies in Hu. simpl in Hu. intuition discriminate.
        - apply roomCalls_origin in Hin as (Hg & _). simpl in Hg. intuition discriminate. }
    by rewrite app_nil_r. }
  split; [exact Heq|]. split; [rewrite Heq; apply length_orderWrites_all|].
  intros shard order. split; [reflexivity|].
  unfold orderWrites. simpl. repeat constructor.
Qed.


(** C9. The histogram receives the cycle's duration exactly when the cycle
    completes; a cycle in which a fetch target fails leaves the histogram as
    it was. *)
Theorem processingDuration_observed_iff_completed lib cfg elapsed w :
  let exit := fst (updateStats lib cfg elapsed w) in
  let before := processingDuration (store w) in
  let after := processingDuration (store (snd (updateStats lib cfg elapsed w))) in
  (exit = Completed <-> after = before ++ [elapsed]) /\
  (exit <> Completed -> after = before) /\
  (forall sent err, FetchFails lib cfg w sent err -> exit = Aborted err /\ after = before).
Proof.
  intros exit before after. subst exit before after.
  rewrite updateStats_fetchState.
  destruct (fetchState lib cfg w) as [[[[authMe orders] statsMap]|err] w1] eqn:E.
  - pose proof (fetchState_Ok _ _ _ _ _ _ _ E) as (Hs & _).
    cbn [fst snd Observe store processingDuration].
    rewrite calls_processingDuration, Hs.
    split; [done|]. split; [done|].
    intros sent err Hf. apply FetchFails_fetchState in Hf as (w2 & Hf & _).
    congruence.
  - destruct (fetchState_FetchFails_ex _ _ _ _ _ E) as (sent & Hf).
    apply FetchFails_fetchState in Hf as (w2 & Hf & Hs & _).
    assert (w2 = w1) as -> by congruence.
    cbn [fst snd Println store]. rewrite Hs.
    split.
    + split; [done|]. intros Heq. apply (f_equal length) in Heq.
      rewrite length_app in Heq. simpl in Heq. lia.
    + split; [done|]. intros sent' err' Hf'.
      apply FetchFails_fetchState in Hf' as (w3 & Hf' & _).
      split; [congruence|done].
Qed.

(** C10. The writes of a market order do not depend on its active flag: two
    orders that agree on every other field produce the same calls, and a
    cycle that has fetched one of them makes these calls whatever the flag
    is. *)
Theorem orderCalls_ignore_active cfg authMe orders statsMap shard os o1 o2 :
  sameButActive o1 o2 ->
  Shards orders !! shard = Some os -> In o1 os ->
  orderCalls shard o1 = orderCalls shard o2 /\
  forall op, In op (orderCalls shard o2) -> In op (publishCalls cfg authMe orders statsMap).
Proof.
  intros (Ht & Ha & Hr & Hy & Hp & Hta & Hn) Hs Hin.
  assert (Heq : orderCalls shard o1 = orderCalls shard o2).
  { unfold orderCalls, orderLabels. by rewrite Ht, Ha, Hr, Hy, Hp, Hta, Hn. }
  split; [exact Heq|]. rewrite <- Heq. intros op Hop.
  unfold publishCalls. apply in_or_app. right. apply in_or_app. right.
  apply in_or_app. left. unfold marketCalls. apply in_flat_map.
  exists (shard, os). split.
  - by apply list_elem_of_In, elem_of_map_to_list.
  - apply in_flat_map. by exists o1.
Qed.

End SegmentCycle.

(** ** The compressed-history exporter *)

Module HistoryFacts.
Import Metrics MetricsFacts History.

(** *** The marker and the base64 text *)

Lemma TrimPrefix_marker text : TrimPrefix ("gz:" +:+ text) "gz:" = text.
Proof. reflexivity. Qed.

Lemma TrimPrefix_unmarked text : HasPrefix text "gz:" = false -> TrimPrefix text "gz:" = text.
Proof. unfold TrimPrefix. by intros ->. Qed.



(** *** The last snapshot *)

Lemma index_last {A : Type} (older : list A) (x : A) :
  index (older ++ [x]) (Z.of_nat (length (older ++ [x])) - 1) = Some x.
Proof.
  unfold index. rewrite length_app. simpl.
  destruct (Z.ltb_spec (Z.of_nat (length older + 1) - 1) 0) as [Hlt|_]; [lia|].
  replace (Z.to_nat (Z.of_nat (length older + 1) - 1)) with (length older) by lia.
  by rewrite list_lookup_middle.
Qed.

Lemma index_end_None {A : Type} (l : list A) :
  index l (Z.of_nat (length l) - 1) = None <-> l = [].
Proof.
  split; [|by intros ->].
  destruct l as [|x l] using rev_ind; [done|]. by rewrite index_last.
Qed.

Lemma currentStats_last older stats : currentStats (memoryOf older stats) = Some stats.
Proof. unfold currentStats, memoryOf. simpl. apply index_last. Qed.

Section Facts.
Variable lib : GoLib.
Variable cfg : Config.

(** [updateStats] is the request, the decode pipeline, the choice of the
    current snapshot and one of three endings. *)
Lemma updateStats_decodeMemory elapsed w :
  updateStats lib cfg elapsed w =
  let w1 := snd (httpGet lib cfg (req_url (memoryRequest cfg)) w) in
  match client_Do lib (length (requests w)) (memoryRequest cfg) with
  | Err err => (Aborted err, Println err w1)
  | Ok body =>
      match decodeMemory lib body with
      | Err err => (Aborted err, Println err w1)
      | Ok memory =>
          match currentStats memory with
          | None =>
              (Panicked (index_panic (Z.of_nat (length (History (Stats_ memory))) - 1)), w1)
          | Some stats => (Completed, Observe elapsed (calls (publishCalls cfg stats) w1))
          end
      end
  end.
Proof.
  unfold updateStats, decodeMemory, currentStats, httpGet, memoryRequest. cbn [fst snd req_url].
  destruct (client_Do lib _ _) as [body|err]; [|done].
  destruct (json_MemoryResponse lib body) as [memoryResponse|err]; [|done].
  cbn zeta.
  destruct (base64_DecodeString lib _) as [z|err]; [|done].
  destruct (gzip_NewReader lib z) as [r|err]; [|done].
  by destruct (json_Memory lib r) as [memory|err].
Qed.

(** *** Where the writes of a cycle come from *)

Lemma snapshot_roomCalls_origin name room g (l : Labels) v :
  In (WithSet g l v) (roomCalls cfg name room) ->
  In g roomFamilies /\ l !! "room" = Some name.
Proof.
  unfold roomCalls, roomFamilies. rewrite !in_app_iff, !in_map_iff. simpl.
  intros [H|[H|H]].
  - repeat (destruct H as [H|H]; [injection H as <- <- <-; split; [tauto|done]|]).
    destruct H.
  - destruct H as ([t c] & H & _). injection H as <- <- <-. split; [tauto|done].
  - destruct H as ([t c] & H & _). injection H as <- <- <-. split; [tauto|done].
Qed.

Lemma snapshot_publishCalls_room stats g (l : Labels) v :
  In g roomFamilies ->
  In (WithSet g l v) (publishCalls cfg stats) ->
  exists name room, Rooms stats !! name = Some room /\ l !! "room" = Some name.
Proof.
  unfold publishCalls. rewrite !in_app_iff, in_flat_map. intros Hg [H|[H|H]].
  - unfold shardCalls in H. unfold roomFamilies in Hg. simpl in H, Hg.
    repeat (destruct H as [H|H]; [injection H as <- <- <-; intuition discriminate|]).
    destruct H.
  - unfold resetCalls in H. simpl in H. intuition discriminate.
  - destruct H as ([name room] & Hin & H). apply snapshot_roomCalls_origin in H as [_ Hn].
    exists name, room. split; [|done]. by apply elem_of_map_to_list, list_elem_of_In.
Qed.

Lemma snapshot_publishCalls_resets stats g :
  In g roomFamilies -> In (Reset g) (publishCalls cfg stats).
Proof.
  intros Hg. unfold publishCalls. apply in_or_app. right. apply in_or_app. left.
  unfold resetCalls, roomFamilies in *. simpl in *.
  repeat (destruct Hg as [<-|Hg]; [tauto|]). destruct Hg.
Qed.


Lemma snapshot_resetBeforeWrites stats g :
  In g roomFamilies -> resetBeforeWrites g (publishCalls cfg stats).
Proof.
  intros Hg. assert (Hin : In (Reset g) resetCalls).
  { unfold resetCalls, roomFamilies in *. simpl in *.
    repeat (destruct Hg as [<-|Hg]; [tauto|]). destruct Hg. }
  apply in_split in Hin as (before & after & Hsplit).
  exists (shardCalls cfg stats ++ before),
         (after ++ flat_map (fun '(name, room) => roomCalls cfg name room)
                            (map_to_list (Rooms stats))).
  split.
  - unfold publishCalls. rewrite Hsplit, <- !app_assoc. done.
  - intros l v [Hin|Hin]%in_app_or.
    + unfold shardCalls in Hin. unfold roomFamilies in Hg. simpl in Hin, Hg.
      repeat (destruct Hin as [Hin|Hin]; [injection Hin as <- <- <-; intuition discriminate|]).
      destruct Hin.
    + assert (Hr : In (WithSet g l v) resetCalls) by (rewrite Hsplit; apply in_or_app; by left).
      unfold resetCalls in Hr. simpl in Hr. intuition discriminate.
Qed.

Lemma snapshot_cycleCalls elapsed w body memory stats :
  client_Do lib (length (requests w)) (memoryRequest cfg) = Ok body ->
  decodeMemory lib body = Ok memory ->
  currentStats memory = Some stats ->
  cycleCalls w (snd (updateStats lib cfg elapsed w)) = publishCalls cfg stats.
Proof.
  intros Hb Hd Hc. rewrite updateStats_decodeMemory, Hb, Hd, Hc.
  unfold cycleCalls. cbn [snd Observe gaugeCalls].
  by rewrite calls_gaugeCalls, drop_app_length.
Qed.

(** The eviction rule of the compressed-history exporter. *)
Lemma history_rooms_evicted elapsed w body memory stats :
  client_Do lib (length (requests w)) (memoryRequest cfg) = Ok body ->
  decodeMemory lib body = Ok memory ->
  currentStats memory = Some stats ->
  forall r, Rooms stats !! r = None ->
  forall g, In g roomFamilies ->
  forall (l : Labels) v,
    gauges (store (snd (updateStats lib cfg elapsed w))) g !! l = Some v -> ~ in_room r l.
Proof.
  intros Hb Hd Hc r Hr g Hg l v Hl Hroom.
  rewrite updateStats_decodeMemory, Hb, Hd, Hc in Hl.
  cbn [snd Observe store gauges] in Hl. rewrite calls_gauges in Hl.
  apply applyOps_reset in Hl; [|by apply snapshot_publishCalls_resets].
  destruct (snapshot_publishCalls_room _ _ _ _ Hg Hl) as (name & room & Hn & Hname).
  unfold in_room in Hroom. rewrite Hroom in Hname. injection Hname as <-.
  rewrite Hr in Hn. discriminate.
Qed.

End Facts.

End HistoryFacts.

Module HistoryCycle.
Import Metrics MetricsFacts History HistoryFacts.

(** C4 (the code breaks it). When the decoded [Memory] has an empty stats
    history, indexing its last entry panics: the cycle neither logs nor
    returns, and the process ends. *)
Theorem updateStats_empty_history_panics lib cfg elapsed w body memory :
  client_Do lib (length (requests w)) (memoryRequest cfg) = Ok body ->
  decodeMemory lib body = Ok memory ->
  History (Stats_ memory) = [] ->
  currentStats memory = None /\
  fst (updateStats lib cfg elapsed w) = Panicked "runtime error: index out of range [-1]" /\
  stdout (snd (updateStats lib cfg elapsed w)) = stdout w.
Proof.
  intros Hb Hd Hh.
  assert (Hc : currentStats memory = None) by (unfold currentStats; by rewrite Hh).
  by rewrite updateStats_decodeMemory, Hb, Hd, Hc, Hh.
Qed.

(** C5. On a response whose envelope decodes, whose data is the marker
    followed by a base64 text, or a base64 text alone, which decodes to a
    gzip stream, which reads as the JSON of a [Memory] with a non-empty
    history: the pipeline yields that [Memory], the current state is the last
    snapshot of the history, and the cycle publishes that snapshot and
    nothing of the earlier ones. *)
Theorem updateStats_selects_last lib cfg elapsed w body memoryResponse text z r older stats :
  client_Do lib (length (requests w)) (memoryRequest cfg) = Ok body ->
  json_MemoryResponse lib body = Ok memoryResponse ->
  Data memoryResponse = "gz:" +:+ text \/
    (Data memoryResponse = text /\ HasPrefix text "gz:" = false) ->
  base64_DecodeString lib text = Ok z ->
  gzip_NewReader lib z = Ok r ->
  json_Memory lib r = Ok (memoryOf older stats) ->
  TrimPrefix (Data memoryResponse) "gz:" = text /\
  decodeMemory lib body = Ok (memoryOf older stats) /\
  currentStats (memoryOf older stats) = Some stats /\
  fst (updateStats lib cfg elapsed w) = Completed /\
  cycleCalls w (snd (updateStats lib cfg elapsed w)) = publishCalls cfg stats.
Proof.
  intros Hb He Hdata H64 Hgz Hjs.
  assert (Ht : TrimPrefix (Data memoryResponse) "gz:" = text).
  { destruct Hdata as [->|[-> Hp]]; [apply TrimPrefix_marker|by apply TrimPrefix_unmarked]. }
  assert (Hd : decodeMemory lib body = Ok (memoryOf older stats)).
  { unfold decodeMemory. by rewrite He, Ht, H64, Hgz. }
  split; [exact Ht|]. split; [exact Hd|]. split; [apply currentStats_last|].
  rewrite updateStats_decodeMemory, Hb, Hd, currentStats_last.
  split; [done|]. unfold cycleCalls. cbn [snd Observe gaugeCalls].
  by rewrite calls_gaugeCalls, drop_app_length.
Qed.


End HistoryCycle.

(** ** The eviction rule, for both exporters *)

Module Eviction.
Import Metrics Segment.

(** C2. In a completed cycle each of rcl, energy, creeps, structures and
    storage is reset before anything is written to it, and after the cycle no
    series of these gauges is labelled with a room that the fetched state
    does not have, whatever the store held before the cycle: in the segment
    exporter a room in no shard's rooms map, in the compressed-history
    exporter a room not in the current snapshot's rooms map. *)
Theorem rooms_evicted :
  (forall lib cfg elapsed w authMe orders statsMap w1,
     fetchState lib cfg w = (Ok (authMe, orders, statsMap), w1) ->
     forall g, In g roomFamilies ->
     resetBeforeWrites g (cycleCalls w (snd (updateStats lib cfg elapsed w))) /\
     forall r, roomAbsent r statsMap ->
     forall (l : Labels) v,
       gauges (store (snd (updateStats lib cfg elapsed w))) g !! l = Some v ->
       ~ in_room r l) /\
  (forall lib cfg elapsed w body memory stats,
     History.client_Do lib (length (requests w)) (History.memoryRequest cfg) = Ok body ->
     History.decodeMemory lib body = Ok memory ->
     History.currentStats memory = Some stats ->
     forall g, In g roomFamilies ->
     resetBeforeWrites g (cycleCalls w (snd (History.updateStats lib cfg elapsed w))) /\
     forall r, History.Rooms stats !! r = None ->
     forall (l : Labels) v,
       gauges (store (snd (History.updateStats lib cfg elapsed w))) g !! l = Some v ->
       ~ in_room r l).
Proof.
  split.
  - intros lib cfg elapsed w authMe orders statsMap w1 H g Hg. split.
    + rewrite (SegmentFacts.completed_cycleCalls lib cfg elapsed _ _ _ _ _ H).
      apply SegmentFacts.publishCalls_resetBeforeWrites.
      unfold roomFamilies, resetFamilies in *. simpl in *. tauto.
    + intros r Hr l v. by eapply SegmentCycle.segment_rooms_evicted.
  - intros lib cfg elapsed w body memory stats Hb Hd Hc g Hg. split.
    + rewrite (HistoryFacts.snapshot_cycleCalls lib cfg elapsed _ _ _ _ Hb Hd Hc).
      by apply HistoryFacts.snapshot_resetBeforeWrites.
    + intros r Hr l v. by eapply HistoryFacts.history_rooms_evicted.
Qed.

End Eviction.

(** ** The scripted runs *)

Module SegmentRunFacts.
Import Metrics MetricsFacts Segment SegmentFacts SegmentRun.

Ltac run := apply pair_fst; vm_compute; reflexivity.

(** The second cycle of a process configured with shard0 alone fetches a
    state without rooms. *)
Lemma second_cycle_fetches :
  fetchState lib cfg0 after0 =
  (Ok (account, openOrders, {[ "shard0" := noRoom ]}), snd (fetchState lib cfg0 after0)).
Proof. run. Defined.

Lemma first_cycle_fetches :
  fetchState lib cfg0 setup =
  (Ok (account, openOrders, {[ "shard0" := oneRoom ]}), snd (fetchState lib cfg0 setup)).
Proof. run. Defined.

(** The second cycle of a process configured with both shards fails at
    shard1, whose segment is cut short. *)
Lemma second_cycle_fails :
  FetchFails lib cfg01 after01
    ([authMeRequest cfg01; marketOrdersRequest cfg01]
     ++ map (segmentRequest cfg01) ["shard0"] ++ [segmentRequest cfg01 "shard1"])
    "unexpected end of JSON input".
Proof.
  apply (shard_fails lib cfg01 after01 account
           (snd (getStatsFromAuthMe lib cfg01 after01)) openOrders
           (snd (getMarketOrders lib cfg01 (snd (getStatsFromAuthMe lib cfg01 after01))))
           ["shard0"] "shard1" [] {[ "shard0" := noRoom ]}
           (snd (fetchShards lib cfg01 ["shard0"] ∅
                   (snd (getMarketOrders lib cfg01
                           (snd (getStatsFromAuthMe lib cfg01 after01))))))).
  - run.
  - run.
  - reflexivity.
  - run.
  - vm_compute. reflexivity.
Defined.


(** The end-to-end scenario of the spec: what the store holds after the
    first cycle. *)
Example first_cycle_store :
  gauges (store after0) resources
    !! ({[ "shard" := "intershard"; "type" := "money" ]} : Labels) = Some 100%float /\
  gauges (store after0) resources
    !! ({[ "shard" := "intershard"; "type" := "energy" ]} : Labels) = Some 50%float /\
  gauges (store after0) cpuShard !! ({[ "shard" := "shard0" ]} : Labels) = Some 20%float /\
  gauges (store after0) rcl
    !! ({[ "shard" := "shard0"; "room" := "W1N1"; "type" := "level" ]} : Labels) = Some 3%float /\
  gauges (store after0) creeps
    !! ({[ "shard" := "shard0"; "room" := "W1N1" ]} : Labels) = Some 5%float /\
  gauges (store after0) energy
    !! ({[ "shard" := "shard0"; "room" := "W1N1"; "type" := "available" ]} : Labels)
    = Some 200%float /\
  gauges (store after0) energy
    !! ({[ "shard" := "shard0"; "room" := "W1N1"; "type" := "capacityAvailable" ]} : Labels)
    = Some 500%float /\
  processingDuration (store after0) = [elapsed].
Proof. vm_compute. repeat split. Qed.

(** The room is gone after the second cycle; the tick series is updated. *)
Example second_cycle_store :
  gauges (store after0_twice) rcl
    !! ({[ "shard" := "shard0"; "room" := "W1N1"; "type" := "level" ]} : Labels) = None /\
  gauges (store after0_twice) tick !! ({[ "shard" := "shard0" ]} : Labels) = Some 1020%float /\
  stdout after0_twice = [].
Proof. vm_compute. repeat split. Qed.



(** C3, at the second cycle of the process with both shards. *)
Lemma updateStats_error_leaves_store_witness :
  FetchFails lib cfg01 after01
    ([authMeRequest cfg01; marketOrdersRequest cfg01]
     ++ map (segmentRequest cfg01) ["shard0"] ++ [segmentRequest cfg01 "shard1"])
    "unexpected end of JSON input" /\
  fst (updateStats lib cfg01 elapsed after01) = Aborted "unexpected end of JSON input" /\
  cycleCalls after01 (snd (updateStats lib cfg01 elapsed after01)) = [] /\
  store (snd (updateStats lib cfg01 elapsed after01)) = store after01.
Proof.
  split; [exact second_cycle_fails|].
  exact (SegmentCycle.updateStats_error_leaves_store lib cfg01 elapsed after01 _ _
           second_cycle_fails).
Defined.

(** C7, at the first cycle of the process with shard0 alone. *)
Lemma marketOrders_four_writes_per_order_witness :
  fetchState lib cfg0 setup =
    (Ok (account, openOrders, {[ "shard0" := oneRoom ]}), snd (fetchState lib cfg0 setup)) /\
  writesTo marketOrders (cycleCalls setup (snd (updateStats lib cfg0 elapsed setup))) =
    flat_map (fun '(shard, order) => orderWrites shard order) (allOrders openOrders) /\
  length (writesTo marketOrders (cycleCalls setup (snd (updateStats lib cfg0 elapsed setup)))) =
    4 * length (allOrders openOrders).
Proof.
  split; [exact first_cycle_fetches|].
  pose proof (SegmentCycle.marketOrders_four_writes_per_order lib cfg0 elapsed setup _ _ _ _
                first_cycle_fetches) as (H1 & H2 & _).
  exact (conj H1 H2).
Defined.



(** C9, at the second cycle of the process with both shards. *)
Lemma processingDuration_observed_iff_completed_witness :
  fst (updateStats lib cfg01 elapsed after01) = Aborted "unexpected end of JSON input" /\
  processingDuration (store (snd (updateStats lib cfg01 elapsed after01))) =
    processingDuration (store after01).
Proof.
  exact (proj2 (proj2 (SegmentCycle.processingDuration_observed_iff_completed
                         lib cfg01 elapsed after01)) _ _ second_cycle_fails).
Defined.

(** C10, at the open sell order and its inactive twin. *)
Lemma orderCalls_ignore_active_witness :
  (sameButActive sellEnergy
     {| Active := false; Type_ := "sell"; Amount := 10; RemainingAmount := 4;
        ResourceType := "energy"; Price := 0.5; TotalAmount := 10; RoomName := "W1N1" |} /\
   Shards openOrders !! "shard0" = Some [sellEnergy] /\ In sellEnergy [sellEnergy]) /\
  orderCalls "shard0" sellEnergy =
  orderCalls "shard0"
    {| Active := false; Type_ := "sell"; Amount := 10; RemainingAmount := 4;
       ResourceType := "energy"; Price := 0.5; TotalAmount := 10; RoomName := "W1N1" |} /\
  forall op,
    In op (orderCalls "shard0"
             {| Active := false; Type_ := "sell"; Amount := 10; RemainingAmount := 4;
                ResourceType := "energy"; Price := 0.5; TotalAmount := 10;
                RoomName := "W1N1" |}) ->
    In op (publishCalls cfg0 account openOrders {[ "shard0" := oneRoom ]}).
Proof.
  assert (H : sameButActive sellEnergy
    {| Active := false; Type_ := "sell"; Amount := 10; RemainingAmount := 4;
       ResourceType := "energy"; Price := 0.5; TotalAmount := 10; RoomName := "W1N1" |})
    by (unfold sameButActive; simpl; repeat split; reflexivity).
  assert (Hs : Shards openOrders !! "shard0" = Some [sellEnergy]) by reflexivity.
  assert (Hin : In sellEnergy [sellEnergy]) by (left; reflexivity).
  split; [exact (conj H (conj Hs Hin))|].
  exact (SegmentCycle.orderCalls_ignore_active cfg0 account openOrders
           {[ "shard0" := oneRoom ]} "shard0" [sellEnergy] _ _ H Hs Hin).
Defined.

End SegmentRunFacts.

Module HistoryRunFacts.
Import Metrics MetricsFacts History HistoryFacts HistoryRun.

(** The three answers of the remote, as the three cycles receive them. *)
Lemma first_answer :
  client_Do lib (length (requests setup)) (memoryRequest cfg) = Ok "memory with room".
Proof. reflexivity. Defined.

Lemma second_answer :
  client_Do lib (length (requests after1)) (memoryRequest cfg) = Ok "memory without room".
Proof. vm_compute. reflexivity. Defined.

Lemma third_answer :
  client_Do lib (length (requests after2)) (memoryRequest cfg) = Ok "memory without history".
Proof. vm_compute. reflexivity. Defined.

Lemma second_memory : decodeMemory lib "memory without room" = Ok withoutRoom.
Proof. vm_compute. reflexivity. Defined.

Lemma third_memory : decodeMemory lib "memory without history" = Ok noHistory.
Proof. vm_compute. reflexivity. Defined.

(** C4, at the third cycle: the process ends in a panic. *)
Lemma updateStats_empty_history_panics_witness :
  (client_Do lib (length (requests after2)) (memoryRequest cfg) = Ok "memory without history" /\
   decodeMemory lib "memory without history" = Ok noHistory /\
   History (Stats_ noHistory) = []) /\
  currentStats noHistory = None /\
  fst (updateStats lib cfg elapsed after2) = Panicked "runtime error: index out of range [-1]" /\
  stdout (snd (updateStats lib cfg elapsed after2)) = stdout after2.
Proof.
  split; [exact (conj third_answer (conj third_memory eq_refl))|].
  exact (HistoryCycle.updateStats_empty_history_panics lib cfg elapsed after2 _ _
           third_answer third_memory eq_refl).
Defined.

(** C5, at the first cycle: the blob carries the marker and two snapshots. *)
Lemma updateStats_selects_last_witness :
  (client_Do lib (length (requests setup)) (memoryRequest cfg) = Ok "memory with room" /\
   json_MemoryResponse lib "memory with room" =
     Ok {| MemoryResponse_Ok := 1; Data := encodeMemory marshal gzip true withRoom |} /\
   base64_DecodeString lib (base64_EncodeToString (gzip (marshal withRoom))) =
     Ok (gzip (marshal withRoom)) /\
   gzip_NewReader lib (gzip (marshal withRoom)) = Ok (readerOf (marshal withRoom)) /\
   json_Memory lib (readerOf (marshal withRoom)) =
     Ok (memoryOf [snapshot 998 {[ "W1N1" := W1N1 ]}] (snapshot 999 {[ "W1N1" := W1N1 ]}))) /\
  currentStats withRoom = Some (snapshot 999 {[ "W1N1" := W1N1 ]}) /\
  fst (updateStats lib cfg elapsed setup) = Completed /\
  cycleCalls setup (snd (updateStats lib cfg elapsed setup)) =
    publishCalls cfg (snapshot 999 {[ "W1N1" := W1N1 ]}).
Proof.
  assert (He : json_MemoryResponse lib "memory with room" =
               Ok {| MemoryResponse_Ok := 1; Data := encodeMemory marshal gzip true withRoom |})
    by reflexivity.
  assert (H64 : base64_DecodeString lib (base64_EncodeToString (gzip (marshal withRoom))) =
                Ok (gzip (marshal withRoom))) by (vm_compute; reflexivity).
  assert (Hgz : gzip_NewReader lib (gzip (marshal withRoom)) = Ok (readerOf (marshal withRoom)))
    by reflexivity.
  assert (Hjs : json_Memory lib (readerOf (marshal withRoom)) =
                Ok (memoryOf [snapshot 998 {[ "W1N1" := W1N1 ]}]
                             (snapshot 999 {[ "W1N1" := W1N1 ]})))
    by (vm_compute; reflexivity).
  split; [exact (conj first_answer (conj He (conj H64 (conj Hgz Hjs))))|].
  pose proof (HistoryCycle.updateStats_selects_last lib cfg elapsed setup _ _ _ _ _ _ _
                first_answer He (or_introl eq_refl) H64 Hgz Hjs) as (_ & _ & Hc & Hx & Hp).
  exact (conj Hc (conj Hx Hp)).
Defined.


End HistoryRunFacts.

Module EvictionRun.
Import Metrics Segment.

(** C2, at the second cycle of either run: the room W1N1 of the first cycle
    is gone from the fetched state, and from the rcl gauge. *)
Lemma rooms_evicted_witness :
  (gauges (store SegmentRun.after0) rcl
     !! ({[ "shard" := "shard0"; "room" := "W1N1"; "type" := "level" ]} : Labels) = Some 3%float /\
   fetchState SegmentRun.lib SegmentRun.cfg0 SegmentRun.after0 =
     (Ok (SegmentRun.account, SegmentRun.openOrders, {[ "shard0" := SegmentRun.noRoom ]}),
      snd (fetchState SegmentRun.lib SegmentRun.cfg0 SegmentRun.after0)) /\
   In rcl roomFamilies /\
   roomAbsent "W1N1" {[ "shard0" := SegmentRun.noRoom ]} /\
   resetBeforeWrites rcl
     (cycleCalls SegmentRun.after0
        (snd (updateStats SegmentRun.lib SegmentRun.cfg0 SegmentRun.elapsed SegmentRun.after0))) /\
   forall (l : Labels) v,
     gauges (store (snd (updateStats SegmentRun.lib SegmentRun.cfg0 SegmentRun.elapsed
                           SegmentRun.after0))) rcl !! l = Some v ->
     ~ in_room "W1N1" l) /\
  (gauges (store HistoryRun.after1) rcl
     !! ({[ "shard" := "shard3"; "room" := "W1N1"; "type" := "level" ]} : Labels) = Some 3%float /\
   History.currentStats HistoryRun.withoutRoom = Some (HistoryRun.snapshot 1000 ∅) /\
   resetBeforeWrites rcl
     (cycleCalls HistoryRun.after1
        (snd (History.updateStats HistoryRun.lib HistoryRun.cfg HistoryRun.elapsed
                HistoryRun.after1))) /\
   forall (l : Labels) v,
     gauges (store (snd (History.updateStats HistoryRun.lib HistoryRun.cfg HistoryRun.elapsed
                           HistoryRun.after1))) rcl !! l = Some v ->
     ~ in_room "W1N1" l).
Proof.
  assert (Habsent : roomAbsent "W1N1" {[ "shard0" := SegmentRun.noRoom ]}).
  { intros shard stats [_ <-]%lookup_singleton_Some. reflexivity. }
  assert (Hrcl : In rcl roomFamilies) by (left; reflexivity).
  split.
  - split; [vm_compute; reflexivity|].
    split; [exact SegmentRunFacts.second_cycle_fetches|].
    split; [exact Hrcl|]. split; [exact Habsent|].
    destruct (proj1 Eviction.rooms_evicted SegmentRun.lib SegmentRun.cfg0 SegmentRun.elapsed
                SegmentRun.after0 _ _ _ _ SegmentRunFacts.second_cycle_fetches rcl Hrcl)
      as [Hreset Hgone].
    exact (conj Hreset (Hgone "W1N1" Habsent)).
  - split; [vm_compute; reflexivity|].
    split; [exact (HistoryFacts.currentStats_last _ _)|].
    destruct (proj2 Eviction.rooms_evicted HistoryRun.lib HistoryRun.cfg HistoryRun.elapsed
                HistoryRun.after1 _ _ _ HistoryRunFacts.second_answer
                HistoryRunFacts.second_memory (HistoryFacts.currentStats_last _ _) rcl Hrcl)
      as [Hreset Hgone].
    exact (conj Hreset (Hgone "W1N1" eq_refl)).
Defined.

End EvictionRun.

(** ** Start-up *)

Module StartupFacts.
Import Startup.

(** The bytes of a string. *)
Abbreviation bytesOf := list_ascii_of_string.

Lemma Split_nonempty s sep : Split s sep <> [].
Proof.
  destruct s as [|c s]; simpl; [done|].
  destruct (Ascii.eqb c sep); [done|]. by destruct (Split s sep).
Qed.


Lemma Split_no_sep s sep piece :
  In piece (Split s sep) -> ~ In sep (bytesOf piece).
Proof.
  revert piece. induction s as [|c s IH]; intros piece; simpl.
  - intros [<-|[]]. simpl. tauto.
  - destruct (Ascii.eqb_spec c sep) as [->|Hne].
    + intros [<-|Hin]; [simpl; tauto|by apply IH].
    + pose proof (Split_nonempty s sep) as Hn.
      destruct (Split s sep) as [|piece0 pieces]; [done|].
      intros [<-|Hin].
      * simpl. intros [?|Hin]; [done|]. apply (IH piece0); [by left|done].
      * apply IH. by right.
Qed.

Lemma Cut_None s sep : Cut s sep = None <-> ~ In sep (bytesOf s).
Proof.
  induction s as [|c s IH]; simpl; [tauto|].
  destruct (Ascii.eqb_spec c sep) as [->|Hne].
  - split; [done|]. intros H. destruct H. by left.
  - destruct (Cut s sep) as [[before after]|].
    + split; [done|]. intros H. exfalso. apply H. right.
      destruct (in_dec Ascii.ascii_dec sep (bytesOf s)) as [?|Hn]; [done|].
      by apply IH in Hn.
    + split; [|done]. intros _ [?|Hin]; [done|]. by apply IH in Hin.
Qed.

Lemma Cut_Some s sep before after :
  Cut s sep = Some (before, after) ->
  s = before +:+ String sep after /\ ~ In sep (bytesOf before).
Proof.
  revert before. induction s as [|c s IH]; intros before; simpl; [done|].
  destruct (Ascii.eqb_spec c sep) as [->|Hne].
  - intros [= <- <-]. simpl. tauto.
  - destruct (Cut s sep) as [[before' after']|]; [|done].
    intros [= <- <-]. destruct (IH _ eq_refl) as [-> Hn].
    split; [done|]. simpl. intros [?|?]; [done|by apply Hn].
Qed.

Lemma Cut_first name sep value :
  ~ In sep (bytesOf name) -> Cut (name +:+ String sep value) sep = Some (name, value).
Proof.
  induction name as [|c name IH]; simpl; intros Hn.
  - by rewrite Ascii.eqb_refl.
  - destruct (Ascii.eqb_spec c sep) as [->|Hne]; [destruct Hn; by left|].
    rewrite IH; [done|]. intros Hin. apply Hn. by right.
Qed.

End StartupFacts.

Module SegmentMainFacts.
Import Metrics Segment Startup StartupFacts SegmentMain.

Lemma index_0 {A : Type} (x : A) l : History.index (x :: l) 0 = Some x.
Proof. reflexivity. Qed.

Lemma index_1 {A : Type} (x y : A) l : History.index (x :: y :: l) 1 = Some y.
Proof. reflexivity. Qed.

Lemma index_1_short {A : Type} (x : A) : History.index [x] 1 = None.
Proof. reflexivity. Qed.

Lemma entryName_marked name value :
  ~ In "="%char (bytesOf name) -> entryName (name +:+ String "=" value) = name.
Proof. intros H. unfold entryName. by rewrite Cut_first. Qed.

(** What one entry of the environment does to the variables. *)
Lemma readEntry_Some cfg e cfg' :
  readEntry cfg e = Some cfg' ->
  (exists value, e = "SCREEPS_SHARDS=" +:+ value /\ entryName e = "SCREEPS_SHARDS" /\
     cfg' = {| shards := Split value ","; segment := segment cfg; token := token cfg |}) \/
  (exists value, e = "SCREEPS_SEGMENT=" +:+ value /\ entryName e = "SCREEPS_SEGMENT" /\
     cfg' = {| shards := shards cfg; segment := value; token := token cfg |}) \/
  (exists value, e = "SCREEPS_TOKEN=" +:+ value /\ entryName e = "SCREEPS_TOKEN" /\
     cfg' = {| shards := shards cfg; segment := segment cfg; token := value |}) \/
  (entryName e <> "SCREEPS_SHARDS" /\ entryName e <> "SCREEPS_SEGMENT" /\
   entryName e <> "SCREEPS_TOKEN" /\ cfg' = cfg).
Proof.
  unfold readEntry, SplitN2, entryName.
  destruct (Cut e "=") as [[name value]|] eqn:E.
  - apply Cut_Some in E as [-> _]. rewrite ?index_0, ?index_1, ?index_1_short.
    destruct (String.eqb_spec name "SCREEPS_SHARDS") as [->|H1].
    { intros [= <-]. left. by exists value. }
    destruct (String.eqb_spec name "SCREEPS_SEGMENT") as [->|H2].
    { intros [= <-]. right. left. by exists value. }
    destruct (String.eqb_spec name "SCREEPS_TOKEN") as [->|H3].
    { intros [= <-]. right. right. left. by exists value. }
    intros [= <-]. by repeat right.
  - rewrite ?index_0, ?index_1, ?index_1_short.
    destruct (String.eqb_spec e "SCREEPS_SHARDS") as [->|H1]; [done|].
    destruct (String.eqb_spec e "SCREEPS_SEGMENT") as [->|H2]; [done|].
    destruct (String.eqb_spec e "SCREEPS_TOKEN") as [->|H3]; [done|].
    intros [= <-]. by repeat right.
Qed.

(** The loop over the environment panics on an entry that is the bare name
    of one of the three variables, and on nothing else. *)
Lemma readEntry_None cfg e :
  readEntry cfg e = None <->
  e = "SCREEPS_SHARDS" \/ e = "SCREEPS_SEGMENT" \/ e = "SCREEPS_TOKEN".
Proof.
  split.
  - unfold readEntry, SplitN2. destruct (Cut e "=") as [[name value]|] eqn:E.
    + rewrite ?index_0, ?index_1, ?index_1_short.
      by repeat destruct (String.eqb _ _).
    + rewrite ?index_0, ?index_1, ?index_1_short.
      destruct (String.eqb_spec e "SCREEPS_SHARDS") as [->|H1]; [tauto|].
      destruct (String.eqb_spec e "SCREEPS_SEGMENT") as [->|H2]; [tauto|].
      destruct (String.eqb_spec e "SCREEPS_TOKEN") as [->|H3]; [tauto|]. done.
  - by intros [-> | [-> | ->]].
Qed.

Lemma readEnviron_None cfg environ :
  readEnviron cfg environ = None <->
  exists e, In e environ /\
            (e = "SCREEPS_SHARDS" \/ e = "SCREEPS_SEGMENT" \/ e = "SCREEPS_TOKEN").
Proof.
  revert cfg. induction environ as [|e environ IH]; intros cfg; simpl.
  - split; [done|]. by intros (e & [] & _).
  - destruct (readEntry cfg e) as [cfg'|] eqn:E.
    + rewrite IH. split.
      * intros (e' & Hin & He'). exists e'. tauto.
      * intros (e' & [<-|Hin] & He'); [|by exists e'].
        apply (readEntry_None cfg) in He'. congruence.
    + split; [|done]. intros _. exists e. split; [by left|]. by eapply readEntry_None.
Qed.


(** A variable no entry names keeps its value. *)
Lemma readEnviron_kept cfg environ cfg' :
  readEnviron cfg environ = Some cfg' ->
  ((forall e, In e environ -> entryName e <> "SCREEPS_SHARDS") -> shards cfg' = shards cfg) /\
  ((forall e, In e environ -> entryName e <> "SCREEPS_SEGMENT") -> segment cfg' = segment cfg) /\
  ((forall e, In e environ -> entryName e <> "SCREEPS_TOKEN") -> token cfg' = token cfg).
Proof.
  revert cfg. induction environ as [|e environ IH]; intros cfg; simpl.
  - by intros [= <-].
  - destruct (readEntry cfg e) as [cfg1|] eqn:E; [|done]. intros H.
    destruct (IH _ H) as (IH1 & IH2 & IH3).
    apply readEntry_Some in E
      as [(v & _ & Hn & ->)|[(v & _ & Hn & ->)|[(v & _ & Hn & ->)|(H1 & H2 & H3 & ->)]]];
      (split; [|split]); intros Hall;
      try (exfalso; by apply (Hall e); [left|]);
      first [rewrite IH1|rewrite IH2|rewrite IH3]; try done;
      intros e' He'; apply Hall; by right.
Qed.

(** The shard list is empty only as long as nothing has set it. *)
Lemma readEnviron_shards_nil cfg environ cfg' :
  readEnviron cfg environ = Some cfg' ->
  (shards cfg' = [] <->
   shards cfg = [] /\ forall e, In e environ -> entryName e <> "SCREEPS_SHARDS").
Proof.
  revert cfg. induction environ as [|e environ IH]; intros cfg; simpl.
  - intros [= <-]. split; [|tauto]. intros H. split; [done|]. by intros e [].
  - destruct (readEntry cfg e) as [cfg1|] eqn:E; [|done]. intros H.
    rewrite (IH _ H).
    apply readEntry_Some in E
      as [(v & _ & Hn & ->)|[(v & _ & Hn & ->)|[(v & _ & Hn & ->)|(H1 & H2 & H3 & ->)]]];
      cbn [shards].
    + split.
      * intros [Hs _]. by apply Split_nonempty in Hs.
      * intros [_ Hall]. exfalso. by apply (Hall e); [left|].
    + split; intros [Hs Hall]; (split; [done|]).
      * intros e' [<-|He']; [by rewrite Hn|by apply Hall].
      * intros e' He'. apply Hall. by right.
    + split; intros [Hs Hall]; (split; [done|]).
      * intros e' [<-|He']; [by rewrite Hn|by apply Hall].
      * intros e' He'. apply Hall. by right.
    + split; intros [Hs Hall]; (split; [done|]).
      * intros e' [<-|He']; [done|by apply Hall].
      * intros e' He'. apply Hall. by right.
Qed.

(** No shard name read from the environment or the arguments has a comma. *)
Lemma readEnviron_no_comma cfg environ cfg' :
  readEnviron cfg environ = Some cfg' ->
  (forall shard, In shard (shards cfg) -> ~ In ","%char (bytesOf shard)) ->
  forall shard, In shard (shards cfg') -> ~ In ","%char (bytesOf shard).
Proof.
  revert cfg. induction environ as [|e environ IH]; intros cfg; simpl.
  - by intros [= <-].
  - destruct (readEntry cfg e) as [cfg1|] eqn:E; [|done]. intros H Hc.
    apply (IH _ H).
    apply readEntry_Some in E
      as [(v & _ & _ & ->)|[(v & _ & _ & ->)|[(v & _ & _ & ->)|(_ & _ & _ & ->)]]];
      cbn [shards]; try done.
    intros shard. apply Split_no_sep.
Qed.

End SegmentMainFacts.

Module SegmentStart.
Import Metrics MetricsFacts Segment SegmentFacts Startup StartupFacts SegmentMain SegmentMainFacts.

(** X1. [main] of the segment exporter panics while it reads the environment
    exactly when some entry is the bare name of one of its three variables,
    with no [=] after it: only then is [split[1]] out of range. *)
Theorem configure_crashes_iff environ args :
  (exists msg, configure environ args = Crashed msg) <->
  exists e, In e environ /\
            (e = "SCREEPS_SHARDS" \/ e = "SCREEPS_SEGMENT" \/ e = "SCREEPS_TOKEN").
Proof.
  rewrite <- (readEnviron_None initial). unfold configure.
  destruct (readEnviron initial environ) as [cfg|].
  - split; [|done]. intros [msg H]. by destruct (_ || _).
  - split; [done|]. intros _. by eexists.
Qed.

Lemma readArgs_shards_nil cfg args :
  shards (readArgs cfg args) = [] <-> (length args <= 2)%nat /\ shards cfg = [].
Proof.
  destruct args as [|a0 [|a1 [|a2 rest]]]; simpl; try (split; [intros ->; split; [lia|done]|tauto]).
  split; [intros H; by apply Split_nonempty in H|lia].
Qed.

(** X2. [main] of the segment exporter refuses the configuration exactly
    when the token is empty, or when nothing has set the shard list: no
    entry of the environment is named SCREEPS_SHARDS and there are fewer than
    two arguments.  An entry SCREEPS_SHARDS with an empty value does set the
    list, to the one empty name. *)
Theorem configure_fatal_iff environ args :
  configure environ args = Fatal "invalid config" <->
  exists cfg,
    readEnviron initial environ = Some cfg /\
    (token (readArgs cfg args) = "" \/
     ((length args <= 2)%nat /\ forall e, In e environ -> entryName e <> "SCREEPS_SHARDS")).
Proof.
  unfold configure. destruct (readEnviron initial environ) as [cfg|] eqn:E.
  - assert (Hnil : (length (shards (readArgs cfg args)) <? 1)%nat = true <->
                   (length args <= 2)%nat /\
                   forall e, In e environ -> entryName e <> "SCREEPS_SHARDS").
    { rewrite Nat.ltb_lt.
      assert (Hl : (length (shards (readArgs cfg args)) < 1)%nat <->
                   shards (readArgs cfg args) = []).
      { destruct (shards (readArgs cfg args)); simpl; [split; [done|lia]|split; [lia|done]]. }
      rewrite Hl, readArgs_shards_nil, (readEnviron_shards_nil _ _ _ E). simpl. tauto. }
    split.
    + intros H. exists cfg. split; [done|].
      destruct (length (shards (readArgs cfg args)) <? 1)%nat eqn:E1.
      * right. by apply Hnil.
      * destruct (String.eqb_spec (token (readArgs cfg args)) "") as [Ht|_]; [by left|done].
    + intros (cfg' & [= <-] & [Ht|Hs]).
      * rewrite Ht. simpl. by rewrite orb_true_r.
      * apply Hnil in Hs. by rewrite Hs.
  - split; [done|]. by intros (cfg & ? & _).
Qed.

(** X3. A configuration [main] of the segment exporter starts the loop with
    has a non-empty token and at least one shard, and no shard name has a
    comma in it. *)
Theorem configure_started_usable environ args cfg :
  configure environ args = Started cfg ->
  token cfg <> "" /\ shards cfg <> [] /\
  forall shard, In shard (shards cfg) -> ~ In ","%char (bytesOf shard).
Proof.
  unfold configure. destruct (readEnviron initial environ) as [cfg0|] eqn:E; [|done].
  destruct (length (shards (readArgs cfg0 args)) <? 1)%nat eqn:E1; [done|].
  destruct (String.eqb_spec (token (readArgs cfg0 args)) "") as [|Ht]; [done|].
  intros [= <-]. split; [done|]. split.
  - intros Hs. rewrite Hs in E1. done.
  - pose proof (readEnviron_no_comma _ _ _ E) as Hc.
    destruct args as [|a0 [|a1 [|a2 rest]]]; simpl; try (apply Hc; by intros ? []).
    intros shard. apply Split_no_sep.
Qed.

(** X4. With two arguments or more after the program's name, the shard list
    and the token come from the arguments, whatever the environment says
    about them; the segment still comes from the environment.  Start-up then
    succeeds as soon as the token argument is not empty. *)
Theorem arguments_override_environment environ cfg program shardsArg tokenArg rest :
  readEnviron initial environ = Some cfg ->
  tokenArg <> "" ->
  configure environ (program :: shardsArg :: tokenArg :: rest) =
  Started {| shards := Split shardsArg ","; segment := segment cfg; token := tokenArg |}.
Proof.
  intros E Ht. unfold configure. rewrite E. cbn [readArgs shards token].
  pose proof (Split_nonempty shardsArg ",") as Hn.
  destruct (Split shardsArg ",") as [|shard l]; [done|].
  destruct (String.eqb_spec tokenArg ""); done.
Qed.


(** X6. The segment number is "0" unless an entry SCREEPS_SEGMENT of the
    environment sets it: the arguments cannot change it. *)
Theorem segment_only_from_environment environ cfg args :
  readEnviron initial environ = Some cfg ->
  (forall e, In e environ -> entryName e <> "SCREEPS_SEGMENT") ->
  segment (readArgs cfg args) = "0".
Proof.
  intros E Hall. destruct (readEnviron_kept _ _ _ E) as (_ & Hs & _).
  specialize (Hs Hall). by destruct args as [|a0 [|a1 [|a2 rest]]].
Qed.

End SegmentStart.

Module SegmentLoop.
Import Metrics MetricsFacts Segment SegmentFacts Startup StartupFacts SegmentMain.

Lemma FetchFails_prefix lib cfg w sent err :
  FetchFails lib cfg w sent err -> exists rest, cycleRequests cfg = sent ++ rest.
Proof.
  intros [err' H|authMe w1 err' H1 H2|
          authMe w1 orders w2 fetched shard rest statsMap w3 err' H1 H2 Hl Hf Hs].
  - by exists (marketOrdersRequest cfg :: map (segmentRequest cfg) (shards cfg)).
  - by exists (map (segmentRequest cfg) (shards cfg)).
  - exists (map (segmentRequest cfg) rest). unfold cycleRequests.
    rewrite Hl, map_app. simpl. by rewrite <- !app_assoc.
Qed.

Lemma FetchFails_sent lib cfg w sent err : FetchFails lib cfg w sent err -> sent <> [].
Proof. by intros [| |]. Qed.

Lemma cycleRequests_token cfg :
  Forall (fun req => req_X_Token req = token cfg) (cycleRequests cfg).
Proof.
  unfold cycleRequests. repeat (apply Forall_cons; [done|]).
  apply Forall_map, Forall_forall. by intros shard _.
Qed.

Lemma updateStats_requests lib cfg elapsed w :
  exists sent rest,
    requests (snd (updateStats lib cfg elapsed w)) = requests w ++ sent /\
    cycleRequests cfg = sent ++ rest /\
    sent <> [] /\
    (fst (updateStats lib cfg elapsed w) = Completed -> rest = []).
Proof.
  rewrite updateStats_fetchState.
  destruct (fetchState lib cfg w) as [[[[authMe orders] statsMap]|err] w1] eqn:E.
  - pose proof (fetchState_Ok _ _ _ _ _ _ _ E) as (_ & _ & _ & Hr).
    exists (cycleRequests cfg), []. cbn [fst snd Observe requests].
    rewrite calls_requests, Hr, app_nil_r. done.
  - pose proof (fetchState_FetchFails _ _ _ _ _ E) as Hf.
    destruct (FetchFails_prefix _ _ _ _ _ Hf) as (rest & Hrest).
    destruct (FetchFails_fetchState _ _ _ _ _ Hf) as (w2 & Hf2 & _ & _ & _ & Hr).
    assert (w2 = w1) as -> by congruence.
    eexists _, rest. cbn [fst snd Println requests].
    split; [exact Hr|]. split; [exact Hrest|]. split; [by eapply FetchFails_sent|done].
Qed.

Lemma sent_token cfg sent rest :
  cycleRequests cfg = sent ++ rest ->
  Forall (fun req => req_X_Token req = token cfg) sent.
Proof.
  intros Heq. pose proof (cycleRequests_token cfg) as H.
  rewrite Heq in H. by apply Forall_app in H as [? _].
Qed.

(** X7. Whatever happens in a cycle of the segment exporter, the requests it
    makes are a non-empty initial part of the list account summary, market
    orders, one segment per configured shard, in this order and each with
    the configured token; a cycle that completes has made them all. *)
Theorem cycle_requests_prefix lib cfg elapsed w :
  exists sent rest,
    requests (snd (updateStats lib cfg elapsed w)) = requests w ++ sent /\
    cycleRequests cfg = sent ++ rest /\
    sent <> [] /\
    Forall (fun req => req_X_Token req = token cfg) sent /\
    (fst (updateStats lib cfg elapsed w) = Completed -> rest = []).
Proof.
  destruct (updateStats_requests lib cfg elapsed w) as (sent & rest & Hr & Hc & Hn & Hdone).
  exists sent, rest. split; [exact Hr|]. split; [exact Hc|]. split; [exact Hn|].
  split; [by eapply sent_token|exact Hdone].
Qed.



End SegmentLoop.

(** ** What the store holds after a cycle of the segment exporter *)

Module EffectFacts.
Import Metrics MetricsFacts Effect.

Lemma effect_snoc ops op g (l : Labels) :
  effect (ops ++ [op]) g l = effectOf g l (effect ops g l) op.
Proof. unfold effect. by rewrite foldl_app. Qed.

(** The calls act on each series by itself. *)
Lemma applyOps_effect gs ops g (l : Labels) :
  applyOps gs ops g !! l = settle (gs g !! l) (effect ops g l).
Proof.
  induction ops as [|op ops IH] using rev_ind; [done|].
  rewrite applyOps_snoc, effect_snoc. destruct op as [g0|g0 l0 v0]; simpl.
  - destruct (decide (g0 = g)) as [->|Hg].
    + by rewrite fn_lookup_insert, lookup_empty.
    + by rewrite fn_lookup_insert_ne.
  - destruct (decide (g0 = g)) as [->|Hg].
    + rewrite fn_lookup_insert. destruct (decide (l0 = l)) as [->|Hl].
      * by rewrite lookup_insert_eq.
      * by rewrite lookup_insert_ne.
    + by rewrite fn_lookup_insert_ne.
Qed.

Lemma effect_reset ops g (l : Labels) : In (Reset g) ops -> is_Some (effect ops g l).
Proof.
  induction ops as [|op ops IH] using rev_ind; [done|].
  rewrite effect_snoc. intros [Hin|[->|[]]]%in_app_or.
  - specialize (IH Hin). destruct op as [g0|g0 l0 v0]; simpl;
      repeat case_decide; try done; by eexists.
  - simpl. rewrite decide_True by done. by eexists.
Qed.

(** The last write to a series decides its value: if the calls end with a
    part that does not reset the gauge and writes one value only to the
    series, the series has that value. *)
Lemma applyOps_last_value gs before after g (l : Labels) v :
  In (WithSet g l v) after ->
  (forall v', In (WithSet g l v') after -> v' = v) ->
  ~ In (Reset g) after ->
  applyOps gs (before ++ after) g !! l = Some v.
Proof.
  intros Hin Huniq Hnr. rewrite applyOps_app.
  destruct (applyOps_written (applyOps gs before) _ _ _ _ Hin Hnr) as [v' Hv'].
  rewrite Hv'. f_equal.
  destruct (applyOps_lookup _ _ _ _ _ Hv') as [Hw|(_ & _ & Hnone)]; [by apply Huniq|].
  by destruct (Hnone v).
Qed.

End EffectFacts.

Module SegmentSeriesFacts.
Import Metrics MetricsFacts Effect EffectFacts Segment SegmentFacts SegmentSeries.

(** From an equation between two label sets, the equations between their
    values. *)
Ltac label_values H :=
  let Hs := fresh "Hs" in
  let Hr := fresh "Hr" in
  let Ht := fresh "Ht" in
  let Ho := fresh "Ho" in
  let Hm := fresh "Hm" in
  pose proof (f_equal (fun m : Labels => m !! "shard") H) as Hs;
  pose proof (f_equal (fun m : Labels => m !! "room") H) as Hr;
  pose proof (f_equal (fun m : Labels => m !! "type") H) as Ht;
  pose proof (f_equal (fun m : Labels => m !! "order_type") H) as Ho;
  pose proof (f_equal (fun m : Labels => m !! "metric") H) as Hm;
  vm_compute in Hs, Hr, Ht, Ho, Hm;
  try discriminate Hs; try discriminate Hr; try discriminate Ht;
  try discriminate Ho; try discriminate Hm.

Lemma roomCalls_series shard name room g (l : Labels) v :
  In (WithSet g l v) (roomCalls shard name room) <-> roomSeries shard name room g l v.
Proof.
  unfold roomCalls. rewrite !in_app_iff, !in_map_iff. split.
  - intros [H|[H|[H|H]]].
    + simpl in H. repeat (destruct H as [H|H]; [injection H as <- <- <-; constructor|]).
      destruct H.
    + destruct H as ([t c] & H & Hin). injection H as <- <- <-.
      constructor. by apply elem_of_map_to_list, list_elem_of_In.
    + destruct H as ([t c] & H & Hin). injection H as <- <- <-.
      constructor. by apply elem_of_map_to_list, list_elem_of_In.
    + destruct H as ([t c] & H & Hin). injection H as <- <- <-.
      constructor. by apply elem_of_map_to_list, list_elem_of_In.
  - intros [| | | | | |t c H|t c H|t c H]; try (left; simpl; tauto).
    + right. left. exists (t, c). split; [done|].
      by apply list_elem_of_In, elem_of_map_to_list.
    + right. right. left. exists (t, c). split; [done|].
      by apply list_elem_of_In, elem_of_map_to_list.
    + right. right. right. exists (t, c). split; [done|].
      by apply list_elem_of_In, elem_of_map_to_list.
Qed.

Lemma shardCalls_series shard stats g (l : Labels) v :
  In (WithSet g l v) (shardCalls shard stats) <->
  shardSeries shard stats g l v \/
  exists name room, Rooms stats !! name = Some room /\ roomSeries shard name room g l v.
Proof.
  unfold shardCalls. rewrite in_app_iff, in_flat_map. split.
  - intros [H|([name room] & Hin & H)].
    + left. simpl in H.
      repeat (destruct H as [H|H]; [injection H as <- <- <-; constructor|]). destruct H.
    + right. exists name, room. split.
      * by apply elem_of_map_to_list, list_elem_of_In.
      * by apply roomCalls_series.
  - intros [H|(name & room & Hr & H)].
    + left. destruct H; simpl; tauto.
    + right. exists (name, room). split.
      * by apply list_elem_of_In, elem_of_map_to_list.
      * by apply roomCalls_series.
Qed.

Lemma roomSeries_key shard name room g (l : Labels) v :
  roomSeries shard name room g l v ->
  In g roomGauges /\ l !! "shard" = Some shard /\ l !! "room" = Some name.
Proof. intros []; (split; [unfold roomGauges; simpl; tauto|done]). Qed.

Lemma shardSeries_key shard stats g (l : Labels) v :
  shardSeries shard stats g l v ->
  In g upsertFamilies /\ l !! "shard" = Some shard.
Proof. intros []; (split; [unfold upsertFamilies; simpl; tauto|done]). Qed.

(** A room has one value for each of its series. *)
Lemma roomSeries_functional shard name room g (l : Labels) v v' :
  roomSeries shard name room g l v -> roomSeries shard name room g l v' -> v = v'.
Proof.
  assert (H : forall g1 (l1 : Labels) v1 g2 (l2 : Labels) v2,
             roomSeries shard name room g1 l1 v1 -> roomSeries shard name room g2 l2 v2 ->
             g1 = g2 -> l1 = l2 -> v1 = v2).
  { intros g1 l1 v1 g2 l2 v2 H1 H2 Hg Hl.
    destruct H1; destruct H2; try discriminate Hg; try done;
      label_values Hl; injection Ht as ->; congruence. }
  intros H1 H2. by eapply H.
Qed.

Lemma shardSeries_functional shard stats g (l : Labels) v v' :
  shardSeries shard stats g l v -> shardSeries shard stats g l v' -> v = v'.
Proof.
  assert (H : forall g1 (l1 : Labels) v1 g2 (l2 : Labels) v2,
             shardSeries shard stats g1 l1 v1 -> shardSeries shard stats g2 l2 v2 ->
             g1 = g2 -> l1 = l2 -> v1 = v2).
  { intros g1 l1 v1 g2 l2 v2 H1 H2 Hg Hl.
    destruct H1; destruct H2; try discriminate Hg; try done; label_values Hl. }
  intros H1 H2. by eapply H.
Qed.

End SegmentSeriesFacts.

Module SegmentStore.
Import Metrics MetricsFacts Effect EffectFacts Segment SegmentFacts SegmentSeries SegmentSeriesFacts.

Lemma fetchShards_lookup lib cfg l statsMap w statsMap' w' :
  fetchShards lib cfg l statsMap w = (Ok statsMap', w') ->
  forall shard, is_Some (statsMap' !! shard) <-> is_Some (statsMap !! shard) \/ In shard l.
Proof.
  revert statsMap w. induction l as [|shard0 l IH]; intros statsMap w H shard; simpl in *.
  - injection H as <- _. tauto.
  - destruct (getStatsFromMemorySegment lib cfg shard0 w) as [[stats|err] w1]; [|done].
    rewrite (IH _ _ H). destruct (decide (shard0 = shard)) as [->|Hne].
    + rewrite lookup_insert_eq. split; [tauto|]. intros _. left. by eexists.
    + rewrite lookup_insert_ne by done. split; [tauto|]. intros [?|[?|?]]; tauto.
Qed.

(** X9. When the fetch phase succeeds, the stats map has an entry for every
    configured shard and for nothing else: the loop that publishes never
    reads the zero value of a missing key. *)
Theorem fetched_state_covers_shards lib cfg w authMe orders statsMap w1 :
  fetchState lib cfg w = (Ok (authMe, orders, statsMap), w1) ->
  forall shard, is_Some (statsMap !! shard) <-> In shard (shards cfg).
Proof.
  unfold fetchState. intros H shard.
  destruct (getStatsFromAuthMe lib cfg w) as [[authMe'|err] w2]; [|done].
  destruct (getMarketOrders lib cfg w2) as [[orders'|err] w3]; [|done].
  destruct (fetchShards lib cfg (shards cfg) ∅ w3) as [[statsMap'|err] w4] eqn:E; [|done].
  injection H as _ _ <- _. rewrite (fetchShards_lookup _ _ _ _ _ _ _ E).
  rewrite lookup_empty. split; [intros [[? ?]|?]; done|tauto].
Qed.

Lemma statsOf_Some statsMap shard stats :
  statsMap !! shard = Some stats -> statsOf statsMap shard = stats.
Proof. unfold statsOf. by intros ->. Qed.

Lemma publishCalls_write cfg authMe orders statsMap g (l : Labels) v :
  In (WithSet g l v) (publishCalls cfg authMe orders statsMap) <->
  In (WithSet g l v) (accountCalls authMe) \/
  In (WithSet g l v) (marketCalls orders) \/
  exists shard, In shard (shards cfg) /\
                In (WithSet g l v) (shardCalls shard (statsOf statsMap shard)).
Proof.
  split; [apply publishCalls_origin|].
  unfold publishCalls. rewrite !in_app_iff, in_flat_map. intros [H|[H|H]]; tauto.
Qed.

(** A series the cycle writes one value to has that value afterwards. *)
Lemma publishCalls_value cfg authMe orders statsMap gs g (l : Labels) v :
  In (WithSet g l v) (publishCalls cfg authMe orders statsMap) ->
  (forall v', In (WithSet g l v') (publishCalls cfg authMe orders statsMap) -> v' = v) ->
  applyOps gs (publishCalls cfg authMe orders statsMap) g !! l = Some v.
Proof.
  unfold publishCalls. intros Hin Huniq. apply applyOps_last_value.
  - apply in_app_or in Hin as [Hin|Hin]; [by apply resetCalls_no_write in Hin|done].
  - intros v' Hin'. apply Huniq, in_or_app. by right.
  - apply projection_no_reset.
Qed.

(** The writes of the cycle to the room-scoped gauges are the series of the
    rooms of the fetched state. *)
Lemma publishCalls_roomSeries cfg authMe orders statsMap g (l : Labels) v :
  In g roomGauges ->
  (In (WithSet g l v) (publishCalls cfg authMe orders statsMap) <->
   exists shard stats name room,
     In shard (shards cfg) /\ statsMap !! shard = Some stats /\
     Rooms stats !! name = Some room /\ roomSeries shard name room g l v).
Proof.
  intros Hg. rewrite publishCalls_write. split.
  - intros [H|[H|(shard & Hin & H)]].
    + apply accountCalls_origin in H as [[-> _]|[-> _]];
        unfold roomGauges in Hg; simpl in Hg; intuition discriminate.
    + apply marketCalls_origin in H as [-> _].
      unfold roomGauges in Hg. simpl in Hg. intuition discriminate.
    + apply shardCalls_series in H as [H|(name & room & Hr & H)].
      * apply shardSeries_key in H as [Hu _].
        unfold roomGauges, upsertFamilies in *. simpl in *.
        repeat (destruct Hg as [<-|Hg]; [intuition discriminate|]). destruct Hg.
      * unfold statsOf in Hr. destruct (statsMap !! shard) as [stats|] eqn:E; simpl in Hr.
        -- by exists shard, stats, name, room.
        -- by rewrite lookup_empty in Hr.
  - intros (shard & stats & name & room & Hin & Hs & Hr & H).
    right. right. exists shard. split; [done|].
    apply shardCalls_series. right. exists name, room.
    by rewrite (statsOf_Some _ _ _ Hs).
Qed.

(** X10. After a completed cycle the room-scoped gauges hold exactly the
    series of the rooms of the fetched state, each with the value fetched:
    nothing of an earlier cycle, nothing missing, no series of one room
    overwritten by another. *)
Theorem room_gauges_exact lib cfg elapsed w authMe orders statsMap w1 g (l : Labels) v :
  fetchState lib cfg w = (Ok (authMe, orders, statsMap), w1) ->
  In g roomGauges ->
  (gauges (store (snd (updateStats lib cfg elapsed w))) g !! l = Some v <->
   exists shard stats name room,
     In shard (shards cfg) /\ statsMap !! shard = Some stats /\
     Rooms stats !! name = Some room /\ roomSeries shard name room g l v).
Proof.
  intros H Hg. rewrite (completed_gauges lib cfg elapsed _ _ _ _ _ H).
  rewrite <- (publishCalls_roomSeries cfg authMe orders statsMap g l v Hg). split.
  - apply applyOps_reset, publishCalls_resets.
    unfold roomGauges, resetFamilies in *. simpl in *. tauto.
  - intros Hin. apply publishCalls_value; [done|]. intros v' Hin'.
    apply (publishCalls_roomSeries _ _ _ _ _ _ _ Hg) in Hin
      as (shard & stats & name & room & _ & Hs & Hr & Hseries).
    apply (publishCalls_roomSeries _ _ _ _ _ _ _ Hg) in Hin'
      as (shard' & stats' & name' & room' & _ & Hs' & Hr' & Hseries').
    destruct (roomSeries_key _ _ _ _ _ _ Hseries) as (_ & Hk1 & Hk2).
    destruct (roomSeries_key _ _ _ _ _ _ Hseries') as (_ & Hk1' & Hk2').
    assert (shard' = shard) as -> by congruence.
    assert (name' = name) as -> by congruence.
    assert (stats' = stats) as -> by congruence.
    assert (room' = room) as -> by congruence.
    by eapply roomSeries_functional.
Qed.

(** X11. After a completed cycle, for every configured shard, the gauges
    tick, ms, global_reset_tick, global_reset_ms, cpu, gcl and gpl hold the
    shard's series with the values fetched for it. *)
Theorem shard_gauges_written lib cfg elapsed w authMe orders statsMap w1 shard stats g
    (l : Labels) v :
  fetchState lib cfg w = (Ok (authMe, orders, statsMap), w1) ->
  In shard (shards cfg) -> statsMap !! shard = Some stats ->
  shardSeries shard stats g l v ->
  gauges (store (snd (updateStats lib cfg elapsed w))) g !! l = Some v.
Proof.
  intros H Hin Hs Hseries. rewrite (completed_gauges lib cfg elapsed _ _ _ _ _ H).
  destruct (shardSeries_key _ _ _ _ _ Hseries) as [Hu Hk].
  apply publishCalls_value.
  - apply publishCalls_write. right. right. exists shard. split; [done|].
    apply shardCalls_series. left. by rewrite (statsOf_Some _ _ _ Hs).
  - intros v' Hin'. apply publishCalls_write in Hin' as [Hw|[Hw|(shard' & Hin' & Hw)]].
    + apply accountCalls_origin in Hw as [[-> _]|[-> _]];
        unfold upsertFamilies in Hu; simpl in Hu; intuition discriminate.
    + apply marketCalls_origin in Hw as [-> _].
      unfold upsertFamilies in Hu. simpl in Hu. intuition discriminate.
    + apply shardCalls_series in Hw as [Hw|(name & room & _ & Hw)].
      * destruct (shardSeries_key _ _ _ _ _ Hw) as [_ Hk'].
        assert (shard' = shard) as -> by congruence.
        rewrite (statsOf_Some _ _ _ Hs) in Hw. by eapply shardSeries_functional.
      * apply roomSeries_key in Hw as (Hg & _).
        unfold roomGauges, upsertFamilies in *. simpl in *.
        repeat (destruct Hg as [<-|Hg]; [intuition discriminate|]). destruct Hg.
Qed.

(** X12. After a completed cycle the cpu_shard gauge holds exactly one series
    per shard of the account summary's CPU allocation, with the amount
    allotted. *)
Theorem cpuShard_exact lib cfg elapsed w authMe orders statsMap w1 (l : Labels) v :
  fetchState lib cfg w = (Ok (authMe, orders, statsMap), w1) ->
  (gauges (store (snd (updateStats lib cfg elapsed w))) cpuShard !! l = Some v <->
   exists shard, CPUShard authMe !! shard = Some v /\ l = {[ "shard" := shard ]}).
Proof.
  intros H. rewrite (completed_gauges lib cfg elapsed _ _ _ _ _ H).
  assert (Hw : forall v0, In (WithSet cpuShard l v0) (publishCalls cfg authMe orders statsMap) <->
                          exists shard, CPUShard authMe !! shard = Some v0 /\
                                        l = {[ "shard" := shard ]}).
  { intros v0. rewrite publishCalls_write. split.
    - intros [Hw|[Hw|(shard & _ & Hw)]].
      + by apply accountCalls_origin in Hw as [[_ ?]|[? _]].
      + by apply marketCalls_origin in Hw as [? _].
      + apply shardCalls_series in Hw as [Hw|(name & room & _ & Hw)].
        * apply shardSeries_key in Hw as [Hu _].
          unfold upsertFamilies in Hu. simpl in Hu. intuition discriminate.
        * apply roomSeries_key in Hw as (Hg & _).
          unfold roomGauges in Hg. simpl in Hg. intuition discriminate.
    - intros (shard & Hc & ->). left. unfold accountCalls. apply in_or_app. left.
      apply in_map_iff. exists (shard, v0). split; [done|].
      by apply list_elem_of_In, elem_of_map_to_list. }
  rewrite <- Hw. split.
  - apply applyOps_reset, publishCalls_resets. unfold resetFamilies. simpl. tauto.
  - intros Hin. apply publishCalls_value; [done|]. intros v' Hin'.
    apply Hw in Hin as (shard & Hc & ->). apply Hw in Hin' as (shard' & Hc' & Heq).
    pose proof (f_equal (fun m : Labels => m !! "shard") Heq) as Hs.
    vm_compute in Hs. injection Hs as ->. congruence.
Qed.

Lemma WithSet_eq g (l : Labels) v g' (l' : Labels) v' :
  WithSet g l v = WithSet g' l' v' -> g = g' /\ l = l' /\ v = v'.
Proof. intros H. by inversion H. Qed.

Lemma resources_write cfg authMe orders statsMap (l : Labels) v :
  In (WithSet resources l v) (publishCalls cfg authMe orders statsMap) ->
  l !! "shard" = Some "intershard" /\
  ((l !! "type" = Some "money" /\ v = Money authMe) \/
   exists typ, Resources authMe !! typ = Some v /\ l !! "type" = Some typ).
Proof.
  intros Hw. apply publishCalls_write in Hw as [Hw|[Hw|(shard & _ & Hw)]].
  - by apply accountCalls_origin in Hw as [[? _]|[_ ?]].
  - by apply marketCalls_origin in Hw as [? _].
  - apply shardCalls_series in Hw as [Hw|(name & room & _ & Hw)].
    + apply shardSeries_key in Hw as [Hu _].
      unfold upsertFamilies in Hu. simpl in Hu. intuition discriminate.
    + apply roomSeries_key in Hw as (Hg & _).
      unfold roomGauges in Hg. simpl in Hg. intuition discriminate.
Qed.

(** X13. After a completed cycle the resources gauge holds, under the shard
    label "intershard", one series per resource of the account summary with
    its amount, and the account's money under the type "money"; when the
    resources have an entry called money themselves, its amount is what the
    series shows, not the account's money. *)
Theorem resources_exact lib cfg elapsed w authMe orders statsMap w1 :
  fetchState lib cfg w = (Ok (authMe, orders, statsMap), w1) ->
  let gs := gauges (store (snd (updateStats lib cfg elapsed w))) in
  (forall typ,
     gs resources !! ({[ "shard" := "intershard"; "type" := typ ]} : Labels) =
     match Resources authMe !! typ with
     | Some amount => Some amount
     | None => if String.eqb typ "money" then Some (Money authMe) else None
     end) /\
  (forall (l : Labels) v,
     gs resources !! l = Some v ->
     exists typ, l !! "shard" = Some "intershard" /\ l !! "type" = Some typ).
Proof.
  intros H gs. subst gs. rewrite (completed_gauges lib cfg elapsed _ _ _ _ _ H). split.
  - intros typ. destruct (Resources authMe !! typ) as [amount|] eqn:E.
    + assert (Hsplit : publishCalls cfg authMe orders statsMap =
        (resetCalls
         ++ map (fun '(shard, amount) => WithSet cpuShard {[ "shard" := shard ]} amount)
                (map_to_list (CPUShard authMe))
         ++ [WithSet resources {[ "shard" := "intershard"; "type" := "money" ]} (Money authMe)])
        ++ (map (fun '(typ, amount) =>
                   WithSet resources {[ "shard" := "intershard"; "type" := typ ]} amount)
                (map_to_list (Resources authMe))
            ++ marketCalls orders
            ++ flat_map (fun shard => shardCalls shard (statsOf statsMap shard)) (shards cfg))).
      { unfold publishCalls, accountCalls. by rewrite <- !app_assoc. }
      rewrite Hsplit. apply applyOps_last_value.
      * apply in_or_app. left. apply in_map_iff. exists (typ, amount). split; [done|].
        by apply list_elem_of_In, elem_of_map_to_list.
      * intros v' [Hw|Hw]%in_app_or.
        -- apply in_map_iff in Hw as ([typ' amount'] & Heq & Hin).
           apply list_elem_of_In, elem_of_map_to_list in Hin.
           apply WithSet_eq in Heq as (_ & Hl & <-).
           pose proof (f_equal (fun m : Labels => m !! "type") Hl) as Ht.
           vm_compute in Ht. injection Ht as ->. congruence.
        -- assert (Hin : In (WithSet resources {[ "shard" := "intershard"; "type" := typ ]} v')
                            (publishCalls cfg authMe orders statsMap)).
           { apply publishCalls_write. right. apply in_app_or in Hw as [?|Hw]; [by left|right].
             by apply in_flat_map in Hw. }
           apply publishCalls_write in Hin as [Hin|[Hin|(shard & _ & Hin)]].
           ++ apply in_app_or in Hw as [Hw|Hw].
              ** by apply marketCalls_origin in Hw as [? _].
              ** apply in_flat_map in Hw as (shard & _ & Hw).
                 apply shardCalls_series in Hw as [Hw|(name & room & _ & Hw)].
                 --- apply shardSeries_key in Hw as [Hu _].
                     unfold upsertFamilies in Hu. simpl in Hu. intuition discriminate.
                 --- apply roomSeries_key in Hw as (Hg & _).
                     unfold roomGauges in Hg. simpl in Hg. intuition discriminate.
           ++ by apply marketCalls_origin in Hin as [? _].
           ++ apply shardCalls_series in Hin as [Hin|(name & room & _ & Hin)].
              ** apply shardSeries_key in Hin as [Hu _].
                 unfold upsertFamilies in Hu. simpl in Hu. intuition discriminate.
              ** apply roomSeries_key in Hin as (Hg & _).
                 unfold roomGauges in Hg. simpl in Hg. intuition discriminate.
      * intros Hr. apply (projection_no_reset cfg authMe orders statsMap resources).
        unfold accountCalls. rewrite !in_app_iff in *. tauto.
    + destruct (String.eqb_spec typ "money") as [->|Hne].
      * apply publishCalls_value.
        -- apply publishCalls_write. left. unfold accountCalls.
           apply in_or_app. right. by left.
        -- intros v' Hw. apply resources_write in Hw as (_ & [[_ ->]|(typ' & Hr & Ht)]); [done|].
           vm_compute in Ht. injection Ht as <-. congruence.
      * destruct (applyOps _ _ resources !! _) as [v|] eqn:Hl; [|done]. exfalso.
        apply applyOps_reset in Hl; [|apply publishCalls_resets; unfold resetFamilies; simpl; tauto].
        apply resources_write in Hl as (_ & [[Ht _]|(typ' & Hr & Ht)]);
          vm_compute in Ht; injection Ht as ?; congruence.
  - intros l v Hl.
    apply applyOps_reset in Hl; [|apply publishCalls_resets; unfold resetFamilies; simpl; tauto].
    apply resources_write in Hl as (Hs & [[Ht _]|(typ & _ & Ht)]); eauto.
Qed.

Lemma orderCalls_write shard order g (l : Labels) v :
  In (WithSet g l v) (orderCalls shard order) ->
  exists metric, l = orderLabels shard order metric /\
    ((metric = "price" /\ v = Price order) \/ (metric = "amount" /\ v = Amount order) \/
     (metric = "remainingAmount" /\ v = RemainingAmount order) \/
     (metric = "totalAmount" /\ v = TotalAmount order)).
Proof.
  unfold orderCalls. simpl. intros [H|[H|[H|[H|[]]]]];
    apply WithSet_eq in H as (_ & <- & <-); eexists; (split; [reflexivity|tauto]).
Qed.

Lemma orderLabels_eq shard order metric shard' order' metric' :
  orderLabels shard order metric = orderLabels shard' order' metric' ->
  shard = shard' /\ metric = metric' /\ sameSeries order' order.
Proof.
  unfold orderLabels, sameSeries. intros H. label_values H.
  injection Hs as Hs. injection Hr as Hr. injection Ht as Ht.
  injection Ho as Ho. injection Hm as Hm.
  split; [exact Hs|]. split; [exact Hm|]. split; [exact Hr|]. split; [exact Ht|exact Ho].
Qed.

Lemma shardPart_gauge cfg statsMap g (l : Labels) v :
  In (WithSet g l v)
     (flat_map (fun shard => shardCalls shard (statsOf statsMap shard)) (shards cfg)) ->
  In g upsertFamilies \/ In g roomGauges.
Proof.
  intros (shard & _ & Hw)%in_flat_map.
  apply shardCalls_series in Hw as [Hw|(name & room & _ & Hw)].
  - left. by apply shardSeries_key in Hw as [? _].
  - right. by apply roomSeries_key in Hw as (? & _).
Qed.

(** The series of an order shows the order's figure when no later order of
    the response labels its series the same way. *)
Lemma marketOrders_value cfg authMe orders statsMap gs shard earlier order later metric v :
  Shards orders !! shard = Some (earlier ++ order :: later) ->
  (forall other, In other later -> ~ sameSeries order other) ->
  In (WithSet marketOrders (orderLabels shard order metric) v) (orderCalls shard order) ->
  applyOps gs (publishCalls cfg authMe orders statsMap) marketOrders
    !! orderLabels shard order metric = Some v.
Proof.
  intros Hs Hlater Hin.
  apply elem_of_map_to_list, list_elem_of_In, in_split in Hs as (L1 & L2 & HL).
  pose proof (NoDup_fst_map_to_list (Shards orders)) as Hnd.
  rewrite HL, fmap_app, fmap_cons in Hnd.
  apply list.NoDup_app in Hnd as (_ & _ & Hnd).
  apply list.NoDup_cons in Hnd as [Hnd _]. cbn [fst] in Hnd.
  pose (F := fun so : string * list MarketOrder =>
               let '(shard, os) := so in flat_map (orderCalls shard) os).
  assert (Hsplit : publishCalls cfg authMe orders statsMap =
    (resetCalls ++ accountCalls authMe ++ flat_map F L1
       ++ flat_map (orderCalls shard) earlier)
    ++ (orderCalls shard order
        ++ (flat_map (orderCalls shard) later ++ flat_map F L2)
        ++ flat_map (fun shard => shardCalls shard (statsOf statsMap shard)) (shards cfg))).
  { unfold publishCalls, marketCalls. fold F. rewrite HL, flat_map_app.
    cbn [flat_map]. unfold F at 2. rewrite flat_map_app. cbn [flat_map].
    by rewrite <- !app_assoc. }
  rewrite Hsplit. apply applyOps_last_value.
  - apply in_or_app. by left.
  - intros v' [Hw|[[Hw|Hw]%in_app_or|Hw]%in_app_or]%in_app_or.
    + apply orderCalls_write in Hin as (m & Hl & Hv).
      apply orderCalls_write in Hw as (m' & Hl' & Hv').
      rewrite Hl in Hl'. apply orderLabels_eq in Hl' as (_ & -> & _).
      destruct Hv as [[-> ->]|[[-> ->]|[[-> ->]|[-> ->]]]];
        destruct Hv' as [[? ->]|[[? ->]|[[? ->]|[? ->]]]]; done.
    + apply in_flat_map in Hw as (other & Ho & Hw).
      apply orderCalls_write in Hw as (m' & Hl' & _).
      apply orderLabels_eq in Hl' as (_ & _ & (? & ? & ?)).
      destruct (Hlater other Ho). by repeat split.
    + apply in_flat_map in Hw as ([shard' os'] & Hin' & Hw). unfold F in Hw.
      apply in_flat_map in Hw as (other & Ho & Hw).
      apply orderCalls_write in Hw as (m' & Hl' & _).
      apply orderLabels_eq in Hl' as (-> & _). destruct Hnd.
      apply list_elem_of_In, in_map_iff. by exists (shard', os').
    + apply shardPart_gauge in Hw as [Hg|Hg];
        unfold upsertFamilies, roomGauges in Hg; simpl in Hg; intuition discriminate.
  - intros Hr. apply (projection_no_reset cfg authMe orders statsMap marketOrders).
    apply in_or_app. right. unfold marketCalls. fold F. rewrite HL, flat_map_app.
    cbn [flat_map]. unfold F at 2. rewrite flat_map_app. cbn [flat_map].
    rewrite !in_app_iff in *. tauto.
Qed.

(** X14. Orders of one shard that agree on room, resource type and order type
    share their four series of the market_orders gauge.  After a completed
    cycle these series show the figures of the last such order in the
    response. *)
Theorem marketOrders_last_order_wins lib cfg elapsed w authMe orders statsMap w1
    shard earlier order later :
  fetchState lib cfg w = (Ok (authMe, orders, statsMap), w1) ->
  Shards orders !! shard = Some (earlier ++ order :: later) ->
  (forall other, In other later -> ~ sameSeries order other) ->
  let gs := gauges (store (snd (updateStats lib cfg elapsed w))) in
  gs marketOrders !! orderLabels shard order "price" = Some (Price order) /\
  gs marketOrders !! orderLabels shard order "amount" = Some (Amount order) /\
  gs marketOrders !! orderLabels shard order "remainingAmount" = Some (RemainingAmount order) /\
  gs marketOrders !! orderLabels shard order "totalAmount" = Some (TotalAmount order).
Proof.
  intros H Hs Hlater gs. subst gs. rewrite (completed_gauges lib cfg elapsed _ _ _ _ _ H).
  repeat split; (eapply marketOrders_value; [exact Hs|exact Hlater|]);
    unfold orderCalls; simpl; tauto.
Qed.

(** X15. A completed cycle that fetches the state the cycle before it fetched
    changes no series of any gauge. *)
Theorem cycle_idempotent lib cfg elapsed elapsed' w authMe orders statsMap w1 w2 g (l : Labels) :
  fetchState lib cfg w = (Ok (authMe, orders, statsMap), w1) ->
  fetchState lib cfg (snd (updateStats lib cfg elapsed w)) = (Ok (authMe, orders, statsMap), w2) ->
  gauges (store (snd (updateStats lib cfg elapsed' (snd (updateStats lib cfg elapsed w))))) g !! l =
  gauges (store (snd (updateStats lib cfg elapsed w))) g !! l.
Proof.
  intros H1 H2. rewrite (completed_gauges lib cfg elapsed' _ _ _ _ _ H2).
  rewrite (completed_gauges lib cfg elapsed _ _ _ _ _ H1).
  rewrite !applyOps_effect.
  by destruct (effect (publishCalls cfg authMe orders statsMap) g l).
Qed.

(** X16. What a completed cycle leaves in the gauges it resets depends on the
    fetched state alone: two cycles that fetch the same state leave the same
    series there, whatever their stores held before. *)
Theorem reset_gauges_forget lib cfg elapsed elapsed' w w' authMe orders statsMap w1 w1'
    g (l : Labels) :
  fetchState lib cfg w = (Ok (authMe, orders, statsMap), w1) ->
  fetchState lib cfg w' = (Ok (authMe, orders, statsMap), w1') ->
  In g resetFamilies ->
  gauges (store (snd (updateStats lib cfg elapsed w))) g !! l =
  gauges (store (snd (updateStats lib cfg elapsed' w'))) g !! l.
Proof.
  intros H1 H2 Hg. rewrite (completed_gauges lib cfg elapsed _ _ _ _ _ H1).
  rewrite (completed_gauges lib cfg elapsed' _ _ _ _ _ H2).
  rewrite !applyOps_effect.
  pose proof (proj2 (publishCalls_resets cfg authMe orders statsMap g) Hg) as Hr.
  by destruct (effect_reset _ _ l Hr) as [e ->].
Qed.


End SegmentStore.

Module SegmentProcess.
Import Metrics Segment Startup SegmentMain.

(** X18. In a process started by [main], the gauges that are never reset
    hold series of configured shards only, after any number of rounds: the
    shard list does not change once the loop runs, and the store starts
    empty. *)
Theorem main_shard_gauges_configured lib environ args n elapsed w g (l : Labels) v :
  main lib environ args n elapsed = Started w ->
  In g upsertFamilies ->
  gauges (store w) g !! l = Some v ->
  exists cfg shard,
    configure environ args = Started cfg /\ In shard (shards cfg) /\ l !! "shard" = Some shard.
Proof.
  unfold main. destruct (configure environ args) as [cfg|msg|msg]; [|done|done].
  intros [= <-] Hg Hl.
  destruct (SegmentCycle.loop_upsert_families lib cfg n elapsed g l v Hg Hl) as (shard & Hin & Hs).
  by exists cfg, shard.
Qed.

End SegmentProcess.

(** ** The compressed-history exporter: outcomes and store *)

Module HistoryStore.
Import Metrics MetricsFacts Effect EffectFacts History HistoryFacts HistorySeries.

Import SegmentSeriesFacts.

Lemma snapshot_roomCalls_series cfg name room g (l : Labels) v :
  In (WithSet g l v) (roomCalls cfg name room) <-> roomSeries cfg name room g l v.
Proof.
  unfold roomCalls. rewrite !in_app_iff, !in_map_iff. split.
  - intros [H|[H|H]].
    + simpl in H. repeat (destruct H as [H|H]; [injection H as <- <- <-; constructor|]).
      destruct H.
    + destruct H as ([t c] & H & Hin). injection H as <- <- <-.
      constructor. by apply elem_of_map_to_list, list_elem_of_In.
    + destruct H as ([t c] & H & Hin). injection H as <- <- <-.
      constructor. by apply elem_of_map_to_list, list_elem_of_In.
  - intros [| | | | | |t c H|t c H]; try (left; simpl; tauto).
    + right. left. exists (t, c). split; [done|].
      by apply list_elem_of_In, elem_of_map_to_list.
    + right. right. exists (t, c). split; [done|].
      by apply list_elem_of_In, elem_of_map_to_list.
Qed.

Lemma snapshot_shardCalls_series cfg stats g (l : Labels) v :
  In (WithSet g l v) (shardCalls cfg stats) <-> shardSeries cfg stats g l v.
Proof.
  unfold shardCalls. split.
  - intros H. simpl in H.
    repeat (destruct H as [H|H]; [injection H as <- <- <-; constructor|]). destruct H.
  - intros []; simpl; tauto.
Qed.

Lemma snapshot_roomSeries_key cfg name room g (l : Labels) v :
  roomSeries cfg name room g l v ->
  In g roomFamilies /\ l !! "room" = Some name /\ l !! "shard" = Some (shard cfg).
Proof. intros []; (split; [unfold roomFamilies; simpl; tauto|done]). Qed.

Lemma snapshot_shardSeries_key cfg stats g (l : Labels) v :
  shardSeries cfg stats g l v ->
  In g shardGauges /\ l !! "room" = None /\ l !! "shard" = Some (shard cfg).
Proof. intros []; (split; [unfold shardGauges; simpl; tauto|done]). Qed.

Lemma snapshot_roomSeries_functional cfg name room g (l : Labels) v v' :
  roomSeries cfg name room g l v -> roomSeries cfg name room g l v' -> v = v'.
Proof.
  assert (H : forall g1 (l1 : Labels) v1 g2 (l2 : Labels) v2,
             roomSeries cfg name room g1 l1 v1 -> roomSeries cfg name room g2 l2 v2 ->
             g1 = g2 -> l1 = l2 -> v1 = v2).
  { intros g1 l1 v1 g2 l2 v2 H1 H2 Hg Hl.
    destruct H1; destruct H2; try discriminate Hg; try done;
      label_values Hl; injection Ht as ->; congruence. }
  intros H1 H2. by eapply H.
Qed.

Lemma snapshot_shardSeries_functional cfg stats g (l : Labels) v v' :
  shardSeries cfg stats g l v -> shardSeries cfg stats g l v' -> v = v'.
Proof.
  assert (H : forall g1 (l1 : Labels) v1 g2 (l2 : Labels) v2,
             shardSeries cfg stats g1 l1 v1 -> shardSeries cfg stats g2 l2 v2 ->
             g1 = g2 -> l1 = l2 -> v1 = v2).
  { intros g1 l1 v1 g2 l2 v2 H1 H2 Hg Hl.
    destruct H1; destruct H2; try discriminate Hg; try done; label_values Hl. }
  intros H1 H2. by eapply H.
Qed.

Lemma snapshot_publishCalls_write cfg stats g (l : Labels) v :
  In (WithSet g l v) (publishCalls cfg stats) <->
  shardSeries cfg stats g l v \/
  exists name room, Rooms stats !! name = Some room /\ roomSeries cfg name room g l v.
Proof.
  unfold publishCalls. rewrite !in_app_iff, in_flat_map, snapshot_shardCalls_series. split.
  - intros [H|[H|([name room] & Hin & H)]]; [by left| |].
    + unfold resetCalls in H. simpl in H. intuition discriminate.
    + right. exists name, room. split.
      * by apply elem_of_map_to_list, list_elem_of_In.
      * by apply snapshot_roomCalls_series.
  - intros [H|(name & room & Hr & H)]; [by left|].
    right. right. exists (name, room). split.
    + by apply list_elem_of_In, elem_of_map_to_list.
    + by apply snapshot_roomCalls_series.
Qed.

Lemma snapshot_rooms_no_reset cfg stats g :
  ~ In (Reset g) (flat_map (fun '(name, room) => roomCalls cfg name room)
                           (map_to_list (Rooms stats))).
Proof.
  intros ([name room] & _ & H)%in_flat_map. unfold roomCalls in H.
  rewrite !in_app_iff, !in_map_iff in H. simpl in H.
  destruct H as [H|[([? ?] & ? & _)|([? ?] & ? & _)]]; try discriminate.
  intuition discriminate.
Qed.

(** The gauges of the shard and the gauges of the rooms are apart. *)
Lemma shardGauges_not_room g : In g shardGauges -> In g roomFamilies -> False.
Proof.
  unfold shardGauges, roomFamilies. simpl. intros Hs Hr.
  repeat (destruct Hs as [<-|Hs]; [intuition discriminate|]). destruct Hs.
Qed.

Lemma shardGauges_no_reset cfg stats g :
  In g shardGauges -> ~ In (Reset g) (publishCalls cfg stats).
Proof.
  intros Hg. unfold publishCalls. rewrite !in_app_iff. intros [H|[H|H]].
  - unfold shardCalls in H. simpl in H. intuition discriminate.
  - apply (shardGauges_not_room g Hg). unfold resetCalls, roomFamilies in *. simpl in *.
    repeat (destruct H as [[= <-]|H]; [tauto|]). destruct H.
  - by apply snapshot_rooms_no_reset in H.
Qed.

(** A series the cycle writes one value to has that value afterwards. *)
Lemma snapshot_publishCalls_value cfg stats gs g (l : Labels) v :
  In (WithSet g l v) (publishCalls cfg stats) ->
  (forall v', In (WithSet g l v') (publishCalls cfg stats) -> v' = v) ->
  applyOps gs (publishCalls cfg stats) g !! l = Some v.
Proof.
  intros Hin Huniq.
  apply snapshot_publishCalls_write in Hin as Hcase.
  destruct Hcase as [Hs|(name & room & Hr & Hs)].
  - (* a series of the shard: its gauge is never reset *)
    apply snapshot_shardSeries_key in Hs as [Hg _].
    replace (publishCalls cfg stats) with ([] ++ publishCalls cfg stats) by done.
    apply applyOps_last_value; [done|done|by apply shardGauges_no_reset].
  - (* a series of a room: written after the resets *)
    apply snapshot_roomSeries_key in Hs as [Hg _].
    unfold publishCalls in *. rewrite app_assoc. apply applyOps_last_value.
    + apply in_app_or in Hin as [Hin|[Hin|Hin]%in_app_or]; [| |done].
      * apply snapshot_shardCalls_series, snapshot_shardSeries_key in Hin as [Hg' _].
        by destruct (shardGauges_not_room g).
      * unfold resetCalls in Hin. simpl in Hin. intuition discriminate.
    + intros v' Hin'. apply Huniq. rewrite !in_app_iff. tauto.
    + apply snapshot_rooms_no_reset.
Qed.

Lemma snapshot_completed_gauges lib cfg elapsed w body memory stats :
  client_Do lib (length (requests w)) (memoryRequest cfg) = Ok body ->
  decodeMemory lib body = Ok memory ->
  currentStats memory = Some stats ->
  gauges (store (snd (updateStats lib cfg elapsed w))) =
  applyOps (gauges (store w)) (publishCalls cfg stats).
Proof.
  intros Hb Hd Hc. rewrite updateStats_decodeMemory, Hb, Hd, Hc.
  cbn [snd Observe store gauges]. by rewrite calls_gauges.
Qed.



(** X20. After a completed cycle the room-scoped gauges hold exactly the
    series of the rooms of the newest snapshot, under the configured shard,
    each with the snapshot's value: nothing of an earlier cycle or of an
    older snapshot is left. *)
Theorem snapshot_room_gauges_exact lib cfg elapsed w body memory stats g (l : Labels) v :
  client_Do lib (length (requests w)) (memoryRequest cfg) = Ok body ->
  decodeMemory lib body = Ok memory ->
  currentStats memory = Some stats ->
  In g roomFamilies ->
  (gauges (store (snd (updateStats lib cfg elapsed w))) g !! l = Some v <->
   exists name room, Rooms stats !! name = Some room /\ roomSeries cfg name room g l v).
Proof.
  intros Hb Hd Hc Hg. rewrite (snapshot_completed_gauges _ _ _ _ _ _ _ Hb Hd Hc).
  assert (Hw : forall v0, In (WithSet g l v0) (publishCalls cfg stats) <->
                          exists name room, Rooms stats !! name = Some room /\
                                            roomSeries cfg name room g l v0).
  { intros v0. rewrite snapshot_publishCalls_write. split; [|tauto].
    intros [Hs|Hr]; [|done]. apply snapshot_shardSeries_key in Hs as [Hs _].
    by destruct (shardGauges_not_room g). }
  rewrite <- Hw. split.
  - by apply applyOps_reset, snapshot_publishCalls_resets.
  - intros Hin. apply snapshot_publishCalls_value; [done|]. intros v' Hin'.
    apply Hw in Hin as (name & room & Hr & Hseries).
    apply Hw in Hin' as (name' & room' & Hr' & Hseries').
    destruct (snapshot_roomSeries_key _ _ _ _ _ _ Hseries) as (_ & Hk & _).
    destruct (snapshot_roomSeries_key _ _ _ _ _ _ Hseries') as (_ & Hk' & _).
    assert (name' = name) as -> by congruence.
    assert (room' = room) as -> by congruence.
    by eapply snapshot_roomSeries_functional.
Qed.

(** X21. The gauges tick, ms, cpu, gcl and gpl are written, never reset: after
    a completed cycle the eleven series of the configured shard have the
    values of the newest snapshot, and every other series of these gauges is
    as it was before the cycle. *)
Theorem snapshot_shard_gauges_upsert lib cfg elapsed w body memory stats g (l : Labels) :
  client_Do lib (length (requests w)) (memoryRequest cfg) = Ok body ->
  decodeMemory lib body = Ok memory ->
  currentStats memory = Some stats ->
  In g shardGauges ->
  let after := gauges (store (snd (updateStats lib cfg elapsed w))) g !! l in
  (forall v, shardSeries cfg stats g l v -> after = Some v) /\
  ((forall v, ~ shardSeries cfg stats g l v) -> after = gauges (store w) g !! l).
Proof.
  intros Hb Hd Hc Hg after. subst after.
  rewrite (snapshot_completed_gauges _ _ _ _ _ _ _ Hb Hd Hc).
  assert (Hw : forall v0, In (WithSet g l v0) (publishCalls cfg stats) <->
                          shardSeries cfg stats g l v0).
  { intros v0. rewrite snapshot_publishCalls_write. split; [|tauto].
    intros [Hs|(name & room & _ & Hr)]; [done|].
    apply snapshot_roomSeries_key in Hr as [Hr _]. by destruct (shardGauges_not_room g). }
  split.
  - intros v Hs. apply snapshot_publishCalls_value; [by apply Hw|].
    intros v' Hin'. apply Hw in Hin'. by eapply snapshot_shardSeries_functional.
  - intros Hnone. apply applyOps_retained; [by apply shardGauges_no_reset|].
    intros v' Hin'. apply Hw in Hin'. by apply (Hnone v').
Qed.


End HistoryStore.

Module HistoryMainFacts.
Import Metrics History Startup StartupFacts HistoryMain.
Import SegmentMainFacts.

Abbreviation entryName := SegmentMain.entryName.




Lemma snapshot_readEntry_None cfg e :
  readEntry cfg e = None <-> e = "SCREEPS_SHARD" \/ e = "SCREEPS_TOKEN".
Proof.
  split.
  - unfold readEntry, SplitN2. destruct (Cut e "=") as [[name value]|] eqn:E.
    + rewrite ?index_0, ?index_1, ?index_1_short.
      by repeat destruct (String.eqb _ _).
    + rewrite ?index_0, ?index_1, ?index_1_short.
      destruct (String.eqb_spec e "SCREEPS_SHARD") as [->|H1]; [tauto|].
      destruct (String.eqb_spec e "SCREEPS_TOKEN") as [->|H2]; [tauto|]. done.
  - by intros [-> | ->].
Qed.

Lemma snapshot_readEnviron_None cfg environ :
  readEnviron cfg environ = None <->
  exists e, In e environ /\ (e = "SCREEPS_SHARD" \/ e = "SCREEPS_TOKEN").
Proof.
  revert cfg. induction environ as [|e environ IH]; intros cfg; simpl.
  - split; [done|]. by intros (e & [] & _).
  - destruct (readEntry cfg e) as [cfg'|] eqn:E.
    + rewrite IH. split.
      * intros (e' & Hin & He'). exists e'. tauto.
      * intros (e' & [<-|Hin] & He'); [|by exists e'].
        apply (snapshot_readEntry_None cfg) in He'. congruence.
    + split; [|done]. intros _. exists e. split; [by left|].
      by eapply snapshot_readEntry_None.
Qed.




End HistoryMainFacts.

Module HistoryStart.
Import Metrics MetricsFacts History HistoryFacts Startup StartupFacts HistoryMain HistoryMainFacts.

(** X23. [main] of the compressed-history exporter panics while it reads the
    environment exactly when some entry is the bare name SCREEPS_SHARD or
    SCREEPS_TOKEN, with no [=] after it.  The names of the segment exporter's
    other variables do no harm here. *)
Theorem snapshot_configure_crashes_iff environ args :
  (exists msg, configure environ args = Crashed msg) <->
  exists e, In e environ /\ (e = "SCREEPS_SHARD" \/ e = "SCREEPS_TOKEN").
Proof.
  rewrite <- (snapshot_readEnviron_None initial). unfold configure.
  destruct (readEnviron initial environ) as [cfg|].
  - split; [|done]. intros [msg H]. by destruct (_ || _).
  - split; [done|]. intros _. by eexists.
Qed.


End HistoryStart.

Module HistoryLoop.
Import Metrics MetricsFacts History HistoryFacts Startup HistoryMain HistoryStore.


End HistoryLoop.

(** ** The statements above on the scripted runs *)

Module StartRunFacts.
Import Startup StartupFacts StartRun.

Lemma environ_reads : SegmentMain.readEnviron SegmentMain.initial environ = Some SegmentRun.cfg0.
Proof. vm_compute. reflexivity. Defined.

Lemma environ_starts : SegmentMain.configure environ program = Started SegmentRun.cfg0.
Proof. vm_compute. reflexivity. Defined.

Lemma environ_no_segment e : In e environ -> SegmentMain.entryName e <> "SCREEPS_SEGMENT".
Proof.
  intros He. unfold environ in He. simpl in He.
  repeat (destruct He as [<-|He]; [by vm_compute|]). destruct He.
Defined.


(** X3, with the shard list and the token from the environment. *)
Lemma configure_started_usable_witness :
  SegmentMain.configure environ program = Started SegmentRun.cfg0 /\
  Segment.token SegmentRun.cfg0 <> "" /\ Segment.shards SegmentRun.cfg0 <> [] /\
  forall shard, In shard (Segment.shards SegmentRun.cfg0) -> ~ In ","%char (bytesOf shard).
Proof.
  split; [exact environ_starts|].
  exact (SegmentStart.configure_started_usable environ program SegmentRun.cfg0 environ_starts).
Defined.

(** X4, with an environment that names another shard, token and segment. *)
Lemma arguments_override_environment_witness :
  SegmentMain.readEnviron SegmentMain.initial environ7 =
    Some {| Segment.shards := ["shard1"]; Segment.segment := "7"; Segment.token := "secret" |} /\
  "other" <> "" /\
  SegmentMain.configure environ7 arguments =
    Started {| Segment.shards := ["shard0"; "shard1"]; Segment.segment := "7";
               Segment.token := "other" |}.
Proof.
  assert (He : SegmentMain.readEnviron SegmentMain.initial environ7 =
               Some {| Segment.shards := ["shard1"]; Segment.segment := "7";
                       Segment.token := "secret" |}) by (vm_compute; reflexivity).
  assert (Ht : "other" <> "") by discriminate.
  split; [exact He|]. split; [exact Ht|].
  exact (SegmentStart.arguments_override_environment environ7 _ "screeps-exporter"
           "shard0,shard1" "other" [] He Ht).
Defined.


(** X6, with arguments that set the shard list and the token. *)
Lemma segment_only_from_environment_witness :
  SegmentMain.readEnviron SegmentMain.initial environ = Some SegmentRun.cfg0 /\
  (forall e, In e environ -> SegmentMain.entryName e <> "SCREEPS_SEGMENT") /\
  Segment.segment (SegmentMain.readArgs SegmentRun.cfg0 arguments) = "0".
Proof.
  split; [exact environ_reads|]. split; [exact environ_no_segment|].
  exact (SegmentStart.segment_only_from_environment environ SegmentRun.cfg0 arguments
           environ_reads environ_no_segment).
Defined.


End StartRunFacts.

Module SteadyRunFacts.
Import Metrics MetricsFacts Segment SegmentFacts SegmentSeries SteadyRun.

Ltac run := apply pair_fst; vm_compute; reflexivity.

Abbreviation fetched := (Ok (wealthy, threeOrders, ({[ "shard0" := SegmentRun.oneRoom ]} : gmap string Stats))).

Lemma first_fetch : fetchState lib cfg setup = (fetched, snd (fetchState lib cfg setup)).
Proof. run. Defined.

Lemma second_fetch : fetchState lib cfg after1 = (fetched, snd (fetchState lib cfg after1)).
Proof. run. Defined.

Lemma shard0_fetched :
  ({[ "shard0" := SegmentRun.oneRoom ]} : gmap string Stats) !! "shard0" = Some SegmentRun.oneRoom.
Proof. vm_compute. reflexivity. Defined.

(** X9. *)
Lemma fetched_state_covers_shards_witness :
  fetchState lib cfg setup = (fetched, snd (fetchState lib cfg setup)) /\
  forall shard,
    is_Some (({[ "shard0" := SegmentRun.oneRoom ]} : gmap string Stats) !! shard) <->
    In shard (shards cfg).
Proof.
  split; [exact first_fetch|].
  exact (SegmentStore.fetched_state_covers_shards lib cfg setup _ _ _ _ first_fetch).
Defined.

(** X10, at the controller level of the one room. *)
Lemma room_gauges_exact_witness :
  fetchState lib cfg setup = (fetched, snd (fetchState lib cfg setup)) /\
  In rcl roomGauges /\
  (gauges (store after1) rcl
     !! ({[ "shard" := "shard0"; "room" := "W1N1"; "type" := "level" ]} : Labels) = Some 3%float <->
   exists shard stats name room,
     In shard (shards cfg) /\
     ({[ "shard0" := SegmentRun.oneRoom ]} : gmap string Stats) !! shard = Some stats /\
     Rooms stats !! name = Some room /\
     roomSeries shard name room rcl
       {[ "shard" := "shard0"; "room" := "W1N1"; "type" := "level" ]} 3%float).
Proof.
  assert (Hg : In rcl roomGauges) by (simpl; tauto).
  split; [exact first_fetch|]. split; [exact Hg|].
  exact (SegmentStore.room_gauges_exact lib cfg elapsed setup _ _ _ _ rcl _ _ first_fetch Hg).
Defined.

(** X11, at the tick of shard0. *)
Lemma shard_gauges_written_witness :
  fetchState lib cfg setup = (fetched, snd (fetchState lib cfg setup)) /\
  In "shard0" (shards cfg) /\
  ({[ "shard0" := SegmentRun.oneRoom ]} : gmap string Stats) !! "shard0" = Some SegmentRun.oneRoom /\
  shardSeries "shard0" SegmentRun.oneRoom tick {[ "shard" := "shard0" ]}
    (Tick SegmentRun.oneRoom) /\
  gauges (store after1) tick !! ({[ "shard" := "shard0" ]} : Labels)
    = Some (Tick SegmentRun.oneRoom).
Proof.
  assert (Hin : In "shard0" (shards cfg)) by (simpl; tauto).
  split; [exact first_fetch|]. split; [exact Hin|]. split; [exact shard0_fetched|].
  split; [exact (tick_now "shard0" SegmentRun.oneRoom)|].
  exact (SegmentStore.shard_gauges_written lib cfg elapsed setup _ _ _ _ "shard0"
           SegmentRun.oneRoom tick _ _ first_fetch Hin shard0_fetched
           (tick_now "shard0" SegmentRun.oneRoom)).
Defined.

(** X12, at the allocation of shard0. *)
Lemma cpuShard_exact_witness :
  fetchState lib cfg setup = (fetched, snd (fetchState lib cfg setup)) /\
  (gauges (store after1) cpuShard !! ({[ "shard" := "shard0" ]} : Labels) = Some 20%float <->
   exists shard, CPUShard wealthy !! shard = Some 20%float /\
                 ({[ "shard" := "shard0" ]} : Labels) = {[ "shard" := shard ]}).
Proof.
  split; [exact first_fetch|].
  exact (SegmentStore.cpuShard_exact lib cfg elapsed setup _ _ _ _ _ _ first_fetch).
Defined.

(** X13, with an account whose resources have an entry called money. *)
Lemma resources_exact_witness :
  fetchState lib cfg setup = (fetched, snd (fetchState lib cfg setup)) /\
  (forall typ,
     gauges (store after1) resources
       !! ({[ "shard" := "intershard"; "type" := typ ]} : Labels) =
     match Resources wealthy !! typ with
     | Some amount => Some amount
     | None => if String.eqb typ "money" then Some (Money wealthy) else None
     end) /\
  (forall (l : Labels) v,
     gauges (store after1) resources !! l = Some v ->
     exists typ, l !! "shard" = Some "intershard" /\ l !! "type" = Some typ).
Proof.
  split; [exact first_fetch|].
  exact (SegmentStore.resources_exact lib cfg elapsed setup _ _ _ _ first_fetch).
Defined.

(** X14, at the second of two buy orders for power in one room, which a sell
    order follows. *)
Lemma marketOrders_last_order_wins_witness :
  fetchState lib cfg setup = (fetched, snd (fetchState lib cfg setup)) /\
  Shards threeOrders !! "shard0" = Some ([buyEarly] ++ buyLate :: [SegmentRun.sellEnergy]) /\
  (forall other, In other [SegmentRun.sellEnergy] -> ~ sameSeries buyLate other) /\
  gauges (store after1) marketOrders !! orderLabels "shard0" buyLate "price" = Some 3%float /\
  gauges (store after1) marketOrders !! orderLabels "shard0" buyLate "amount" = Some 12%float /\
  gauges (store after1) marketOrders !! orderLabels "shard0" buyLate "remainingAmount"
    = Some 5%float /\
  gauges (store after1) marketOrders !! orderLabels "shard0" buyLate "totalAmount"
    = Some 20%float.
Proof.
  assert (Hs : Shards threeOrders !! "shard0" =
               Some ([buyEarly] ++ buyLate :: [SegmentRun.sellEnergy]))
    by (vm_compute; reflexivity).
  assert (Hlater : forall other, In other [SegmentRun.sellEnergy] -> ~ sameSeries buyLate other).
  { intros other [<-|[]] (_ & _ & Ht). simpl in Ht. discriminate Ht. }
  split; [exact first_fetch|]. split; [exact Hs|]. split; [exact Hlater|].
  exact (SegmentStore.marketOrders_last_order_wins lib cfg elapsed setup _ _ _ _
           "shard0" [buyEarly] buyLate [SegmentRun.sellEnergy] first_fetch Hs Hlater).
Defined.

(** X15, at the controller level of the one room. *)
Lemma cycle_idempotent_witness :
  fetchState lib cfg setup = (fetched, snd (fetchState lib cfg setup)) /\
  fetchState lib cfg after1 = (fetched, snd (fetchState lib cfg after1)) /\
  gauges (store (snd (updateStats lib cfg elapsed after1))) rcl
    !! ({[ "shard" := "shard0"; "room" := "W1N1"; "type" := "level" ]} : Labels) =
  gauges (store after1) rcl
    !! ({[ "shard" := "shard0"; "room" := "W1N1"; "type" := "level" ]} : Labels).
Proof.
  split; [exact first_fetch|]. split; [exact second_fetch|].
  exact (SegmentStore.cycle_idempotent lib cfg elapsed elapsed setup _ _ _ _ _ rcl _
           first_fetch second_fetch).
Defined.

(** X16, from the empty store and from the store of the first cycle. *)
Lemma reset_gauges_forget_witness :
  fetchState lib cfg setup = (fetched, snd (fetchState lib cfg setup)) /\
  fetchState lib cfg after1 = (fetched, snd (fetchState lib cfg after1)) /\
  In storage resetFamilies /\
  gauges (store after1) storage
    !! ({[ "shard" := "shard0"; "room" := "W1N1"; "type" := "energy" ]} : Labels) =
  gauges (store (snd (updateStats lib cfg elapsed after1))) storage
    !! ({[ "shard" := "shard0"; "room" := "W1N1"; "type" := "energy" ]} : Labels).
Proof.
  assert (Hg : In storage resetFamilies) by (simpl; tauto).
  split; [exact first_fetch|]. split; [exact second_fetch|]. split; [exact Hg|].
  exact (SegmentStore.reset_gauges_forget lib cfg elapsed elapsed setup after1 _ _ _ _ _
           storage _ first_fetch second_fetch Hg).
Defined.

End SteadyRunFacts.

Module ProcessRunFacts.
Import Metrics MetricsFacts Startup StartRun.

Lemma segment_main_runs :
  SegmentMain.main SegmentRun.lib environ program 2 (fun _ => SegmentRun.elapsed)
  = Started SegmentRun.after0_twice.
Proof. unfold SegmentMain.main. by rewrite StartRunFacts.environ_starts. Defined.



(** X18, at the tick of shard0 after two rounds. *)
Lemma main_shard_gauges_configured_witness :
  SegmentMain.main SegmentRun.lib environ program 2 (fun _ => SegmentRun.elapsed)
    = Started SegmentRun.after0_twice /\
  In tick Segment.upsertFamilies /\
  gauges (store SegmentRun.after0_twice) tick !! ({[ "shard" := "shard0" ]} : Labels)
    = Some 1020%float /\
  exists cfg shard,
    SegmentMain.configure environ program = Started cfg /\ In shard (Segment.shards cfg) /\
    ({[ "shard" := "shard0" ]} : Labels) !! "shard" = Some shard.
Proof.
  assert (Hg : In tick Segment.upsertFamilies) by (simpl; tauto).
  assert (Hl : gauges (store SegmentRun.after0_twice) tick
                 !! ({[ "shard" := "shard0" ]} : Labels) = Some 1020%float)
    by (vm_compute; reflexivity).
  split; [exact segment_main_runs|]. split; [exact Hg|]. split; [exact Hl|].
  exact (SegmentProcess.main_shard_gauges_configured SegmentRun.lib environ program 2
           (fun _ => SegmentRun.elapsed) SegmentRun.after0_twice tick _ _
           segment_main_runs Hg Hl).
Defined.


End ProcessRunFacts.

Module SnapshotRunFacts.
Import Metrics MetricsFacts History HistoryFacts HistorySeries HistoryRun.

Lemma first_memory : decodeMemory lib "memory with room" = Ok withRoom.
Proof. vm_compute. reflexivity. Defined.

Lemma first_stats : currentStats withRoom = Some (snapshot 999 {[ "W1N1" := W1N1 ]}).
Proof. reflexivity. Defined.

(** X20, at the creeps of the one room in the first cycle. *)
Lemma snapshot_room_gauges_exact_witness :
  client_Do lib (length (requests setup)) (memoryRequest cfg) = Ok "memory with room" /\
  decodeMemory lib "memory with room" = Ok withRoom /\
  currentStats withRoom = Some (snapshot 999 {[ "W1N1" := W1N1 ]}) /\
  In creeps roomFamilies /\
  (gauges (store after1) creeps !! ({[ "shard" := "shard3"; "room" := "W1N1" ]} : Labels)
     = Some 5%float <->
   exists name room,
     Rooms (snapshot 999 {[ "W1N1" := W1N1 ]}) !! name = Some room /\
     roomSeries cfg name room creeps {[ "shard" := "shard3"; "room" := "W1N1" ]} 5%float).
Proof.
  assert (Hg : In creeps roomFamilies) by (simpl; tauto).
  split; [exact HistoryRunFacts.first_answer|]. split; [exact first_memory|].
  split; [exact first_stats|]. split; [exact Hg|].
  exact (HistoryStore.snapshot_room_gauges_exact lib cfg elapsed setup _ _ _ creeps _ _
           HistoryRunFacts.first_answer first_memory first_stats Hg).
Defined.

(** X21, at the tick series of the configured shard and of another one. *)
Lemma snapshot_shard_gauges_upsert_witness :
  client_Do lib (length (requests setup)) (memoryRequest cfg) = Ok "memory with room" /\
  decodeMemory lib "memory with room" = Ok withRoom /\
  currentStats withRoom = Some (snapshot 999 {[ "W1N1" := W1N1 ]}) /\
  In tick shardGauges /\
  (forall v, shardSeries cfg (snapshot 999 {[ "W1N1" := W1N1 ]}) tick {[ "shard" := "shard3" ]} v ->
     gauges (store after1) tick !! ({[ "shard" := "shard3" ]} : Labels) = Some v) /\
  ((forall v, ~ shardSeries cfg (snapshot 999 {[ "W1N1" := W1N1 ]}) tick
                  {[ "shard" := "shard3" ]} v) ->
   gauges (store after1) tick !! ({[ "shard" := "shard3" ]} : Labels)
   = gauges (store setup) tick !! ({[ "shard" := "shard3" ]} : Labels)).
Proof.
  assert (Hg : In tick shardGauges) by (simpl; tauto).
  split; [exact HistoryRunFacts.first_answer|]. split; [exact first_memory|].
  split; [exact first_stats|]. split; [exact Hg|].
  exact (HistoryStore.snapshot_shard_gauges_upsert lib cfg elapsed setup _ _ _ tick
           {[ "shard" := "shard3" ]}
           HistoryRunFacts.first_answer first_memory first_stats Hg).
Defined.

End SnapshotRunFacts.
